(** * Verification of the statevector core of the quantum computing laboratory

    Amplitudes are exact: an amplitude is an element of the cyclotomic
    integers Z[zeta] with zeta = exp(i*pi/32), written as its 32 integer
    coefficients on 1, zeta, ..., zeta^31 (zeta^32 = -1), and a state carries
    a common scale [k] meaning every stored amplitude is divided by sqrt(2)^k.
    This represents every state reachable from a basis state by H, X, Y, Z,
    CNOT, CZ, SWAP, RZ(pi/4) and controlled phases pi/2^d with d <= 5, i.e.
    every gate the QFT constructions use on at most 6 qubits. *)

From Stdlib Require Import ZArith QArith List Bool Arith Lia String Ascii.
From Stdlib Require Import Znumtheory Sorted Lqa.
Import ListNotations.

Open Scope Z_scope.

(** ** Cyclotomic amplitudes *)
Module Cyc.

Definition deg : nat := 32.

Definition t := list Z.

Definition zero : t := repeat 0 deg.

Definition const (z : Z) : t := z :: repeat 0 (pred deg).

Fixpoint zip_with (f : Z -> Z -> Z) (a b : list Z) : list Z :=
  match a, b with
  | x :: a', y :: b' => f x y :: zip_with f a' b'
  | _, _ => []
  end.

Definition add (a b : t) : t := zip_with Z.add a b.
Definition sub (a b : t) : t := zip_with Z.sub a b.
Definition opp (a : t) : t := map Z.opp a.
Definition scal (z : Z) (a : t) : t := map (Z.mul z) a.

(** multiplication by zeta^j for j < 32: the top j coefficients wrap
    around with a sign *)
Definition shift (j : nat) (a : t) : t :=
  map Z.opp (skipn (deg - j)%nat a) ++ firstn (deg - j)%nat a.

(** multiplication by zeta^k, zeta^64 = 1 *)
Definition rot (k : nat) (a : t) : t :=
  let k' := (k mod 64)%nat in
  if Nat.ltb k' deg then shift k' a else opp (shift (k' - deg)%nat a).

(** complex conjugation: zeta^j |-> zeta^(-j) = - zeta^(32-j) *)
Definition conj (a : t) : t :=
  match a with
  | c0 :: rest => c0 :: rev (map Z.opp rest)
  | [] => []
  end.

Fixpoint mul_aux (j : nat) (a : list Z) (b : t) : t :=
  match a with
  | [] => zero
  | c :: a' => add (scal c (rot j b)) (mul_aux (S j) a' b)
  end.

Definition mul (a b : t) : t := mul_aux 0 a b.

(** squared modulus |a|^2, an element of the real subfield *)
Definition norm2 (a : t) : t := mul a (conj a).

Definition eqb (a b : t) : bool :=
  (Nat.eqb (List.length a) (List.length b)) && forallb (fun p => Z.eqb (fst p) (snd p)) (combine a b).

Definition is_zero (a : t) : bool := forallb (Z.eqb 0) a.

(** the rational value of an element with only a constant coefficient *)
Definition as_const (a : t) : option Z :=
  match a with
  | c :: rest => if forallb (Z.eqb 0) rest then Some c else None
  | [] => None
  end.

End Cyc.

(** ** Gates and the statevector simulator *)

(** A gate operation bound to qubit indices; [GCP k c t] multiplies the
    |11> component of qubits c and t by zeta^k (the phase k*pi/32), and
    [GRZ k q] is diag(zeta^-k, zeta^k) on qubit q (RZ(k*pi/16)). *)
Inductive GateOp :=
| GH (q : nat)
| GX (q : nat)
| GY (q : nat)
| GZ (q : nat)
| GCNOT (c tg : nat)
| GCP (k : nat) (c tg : nat)
| GSWAP (a b : nat)
| GRZ (k : nat) (q : nat).

Record State := mkState {
  nqubits : nat;
  scale : nat;
  amps : list Cyc.t
}.

Definition initialize (n : nat) : State :=
  mkState n 0 (map (fun b => if Nat.eqb b 0 then Cyc.const 1 else Cyc.zero)
                   (seq 0 (2 ^ n))).

Definition amp (s : State) (b : nat) : Cyc.t := nth b (amps s) Cyc.zero.

Definition bit (b q : nat) : bool := Nat.testbit b q.

Definition flip (b q : nat) : nat := Nat.lxor b (2 ^ q).

Definition swap_bits (b x y : nat) : nat :=
  if Bool.eqb (bit b x) (bit b y) then b else flip (flip b x) y.

Definition remap (s : State) (k : nat) (f : nat -> Cyc.t) : State :=
  mkState (nqubits s) k (map f (seq 0 (2 ^ nqubits s))).

(** zeta^-k as a rotation by 64 - k (mod 64) *)
Definition rot_inv (k : nat) (a : Cyc.t) : Cyc.t := Cyc.rot (64 - (k mod 64)) a.

Definition apply (g : GateOp) (s : State) : State :=
  let a := amp s in
  match g with
  | GH q => remap s (S (scale s)) (fun b =>
      if bit b q then Cyc.sub (a (flip b q)) (a b) else Cyc.add (a b) (a (flip b q)))
  | GX q => remap s (scale s) (fun b => a (flip b q))
  | GY q => remap s (scale s) (fun b =>
      if bit b q then Cyc.rot 16 (a (flip b q)) else Cyc.rot 48 (a (flip b q)))
  | GZ q => remap s (scale s) (fun b => if bit b q then Cyc.opp (a b) else a b)
  | GCNOT c tg => remap s (scale s) (fun b => if bit b c then a (flip b tg) else a b)
  | GCP k c tg => remap s (scale s) (fun b =>
      if bit b c && bit b tg then Cyc.rot k (a b) else a b)
  | GSWAP x y => remap s (scale s) (fun b => a (swap_bits b x y))
  | GRZ k q => remap s (scale s) (fun b =>
      if bit b q then Cyc.rot k (a b) else rot_inv k (a b))
  end.

Definition run (gs : list GateOp) (s : State) : State :=
  fold_left (fun st g => apply g st) gs s.

(** A basis outcome can be sampled iff its amplitude is nonzero. *)
Definition in_support (s : State) (b : nat) : bool :=
  Nat.ltb b (2 ^ nqubits s) && negb (Cyc.is_zero (amp s b)).

(** ** Quantum Fourier transform constructions *)
Module QFT.

(** [cirq.CZ ** (1/2^d)] is the controlled phase pi/2^d = zeta^(2^(5-d)),
    for the distances d <= 5 that occur on at most 6 qubits. *)
Definition cz_pow (d : nat) : nat := 2 ^ (5 - d).

(** [CZPowGate(exponent = -1/2^d)], the controlled phase -pi/2^d *)
Definition cz_pow_neg (d : nat) : nat := 64 - 2 ^ (5 - d).

(** [CirqQuantumLab._apply_qft] on LineQubits 0 .. n-1 *)
Definition apply_qft (n : nat) : list GateOp :=
  flat_map (fun i => GH i :: map (fun j => GCP (cz_pow (j - i)) j i) (seq (S i) (n - S i)))
           (seq 0 n)
  ++ map (fun i => GSWAP i (n - 1 - i)) (seq 0 (n / 2)).

(** the local [inverse_qft] of [CirqQuantumLab.quantum_phase_estimation] *)
Definition inverse_qft (n : nat) : list GateOp :=
  map (fun i => GSWAP i (n - 1 - i)) (seq 0 (n / 2))
  ++ flat_map (fun i => map (fun j => GCP (cz_pow_neg (i - j)) j i) (seq 0 i) ++ [GH i])
              (seq 0 n).

(** [qft_rotations] of [QiskitQuantumLab.quantum_fourier_transform]
    (part_000): H on the highest remaining qubit, the phases
    [cp(pi/2**(n-qubit), qubit, n)] onto it, then the rest *)
Fixpoint qft_rotations (n : nat) : list GateOp :=
  match n with
  | O => []
  | S m => GH m :: map (fun q => GCP (cz_pow (m - q)) q m) (seq 0 m) ++ qft_rotations m
  end.

Definition quantum_fourier_transform (n : nat) : list GateOp :=
  qft_rotations n ++ map (fun q => GSWAP q (n - q - 1)) (seq 0 (n / 2)).

(** A basis state |b> on n qubits. *)
Definition basis (n b : nat) : State :=
  mkState n 0 (map (fun x => if Nat.eqb x b then Cyc.const 1 else Cyc.zero)
                   (seq 0 (2 ^ n))).

Definition roundtrip (n : nat) (s : State) : State := run (apply_qft n ++ inverse_qft n) s.

End QFT.

(** ** Shot sampling

    One shot of a simulator returns some basis outcome of nonzero amplitude.
    The random choice is an explicit argument [r]: [sample s r] is the
    [r mod m]-th of the [m] outcomes in the support, so every outcome of
    nonzero probability can be drawn and no other can. *)
Definition support (s : State) : list nat :=
  filter (in_support s) (seq 0 (2 ^ nqubits s)).

Definition sample (s : State) (r : nat) : nat :=
  let sup := support s in nth (r mod List.length sup) sup 0%nat.

(** Python results: a value or a raised exception. *)
Inductive PyExc := ValueError | ZeroDivisionError | RuntimeErr (msg : string).

Inductive PyResult (A : Type) := Ret (a : A) | Raise (e : PyExc).
Arguments Ret {A} a.
Arguments Raise {A} e.

(** ** BB84 key distribution *)
Module BB84.

(** the random draws of one trial: [random.choice([0, 1])] three times
    and the simulator's random choice for the single shot *)
Record Trial := mkTrial {
  alice_bit : bool;
  alice_basis : bool;
  bob_basis : bool;
  shot : nat
}.

Definition b2n (b : bool) : nat := if b then 1%nat else 0%nat.

(** the per-bit circuit: X if the bit is 1, H for Alice's diagonal basis,
    H for Bob's diagonal basis, then measurement of qubit 0 *)
Definition bit_circuit (bit abasis bbasis : bool) : list GateOp :=
  (if bit then [GX 0] else []) ++ (if abasis then [GH 0] else [])
  ++ (if bbasis then [GH 0] else []).

Definition measure_bit (t : Trial) : nat :=
  sample (run (bit_circuit (alice_bit t) (alice_basis t) (bob_basis t)) (initialize 1)) (shot t).

(** the loop of [QiskitQuantumLab.bb84_key_distribution] (part_000; the
    Cirq lab's loop there is the same) *)
Fixpoint loop (draws : nat -> Trial) (key_length : Z) (fuel i : nat)
    (shared_key : list bool) (errors : nat) : list bool * nat :=
  match fuel with
  | O => (shared_key, errors)
  | S fuel' =>
      let t := draws i in
      let bob_result := measure_bit t in
      if Bool.eqb (alice_basis t) (bob_basis t) then
        let key' := shared_key ++ [alice_bit t] in
        let errors' := if Nat.eqb (b2n (alice_bit t)) bob_result then errors else S errors in
        if Z.leb key_length (Z.of_nat (List.length key')) then (key', errors')
        else loop draws key_length fuel' (S i) key' errors'
      else loop draws key_length fuel' (S i) shared_key errors
  end.

(** [error_rate = (errors / len(shared_key)) * 100 if shared_key else 0] *)
Definition bb84_key_distribution (draws : nat -> Trial) (key_length : Z) : list bool * Q :=
  let '(key, errors) := loop draws key_length (Z.to_nat (key_length * 2)) 0 [] 0 in
  (key, match key with
        | [] => 0%Q
        | _ => (inject_Z (Z.of_nat errors) / inject_Z (Z.of_nat (List.length key)) * 100)%Q
        end).

(** [QiskitQuantumLab.bb84_key_distribution] of qiskit quantum.py *)
Record KeyData := mkKeyData {
  kd_key_length : nat;
  kd_key_binary : list bool;
  kd_error_rate : Q;
  kd_efficiency : Q
}.

Definition take_key (key_length : Z) (bits : list bool) : list bool :=
  if Z.leb key_length (Z.of_nat (List.length bits)) then firstn (Z.to_nat key_length) bits else bits.

(** [alice_bits], [alice_bases], [bob_bases] are the three lists of
    [random.randint(0, 1)]; [u] is the [random.random()] behind
    [random.uniform(0, 0.05)].  The measurements the loop makes are never
    read afterwards. *)
Definition bb84_key_distribution_v1 (alice_bits alice_bases bob_bases : nat -> bool)
    (u : Q) (key_length : Z) : PyResult KeyData :=
  let idx := seq 0 (Z.to_nat (key_length * 2)) in
  let shared := map alice_bits
      (filter (fun i => Bool.eqb (alice_bases i) (bob_bases i)) idx) in
  let final_key := take_key key_length shared in
  let error_rate := (0 + ((5 # 100) - 0) * u)%Q in
  match final_key with
  | [] => Raise ValueError  (* int('', 2) in key_hex *)
  | _ => Ret (mkKeyData (List.length final_key) final_key error_rate
               (inject_Z (Z.of_nat (List.length final_key)) / inject_Z (Z.of_nat (List.length idx)))%Q)
  end.

End BB84.

(** Squared distance |r_b - v_b|^2 between component [b] of a result [s]
    (even scale) and of an unscaled state [v], when it is rational. *)
Definition err2 (s v : State) (b : nat) : option Q :=
  if Nat.even (scale s) && Nat.eqb (scale v) 0 then
    match Cyc.as_const (Cyc.norm2 (Cyc.sub (amp s b)
             (Cyc.scal (2 ^ Z.of_nat (scale s / 2)) (amp v b)))) with
    | Some c => Some (inject_Z c / inject_Z (2 ^ Z.of_nat (scale s)))%Q
    | None => None
    end
  else None.

(** Born probability of the outcomes [b] with [P b], when it is rational. *)
Definition born_prob (s : State) (P : nat -> bool) : option Q :=
  match Cyc.as_const (fold_right Cyc.add Cyc.zero
          (map (fun b => Cyc.norm2 (amp s b)) (filter P (seq 0 (2 ^ nqubits s))))) with
  | Some c => Some (inject_Z c / inject_Z (2 ^ Z.of_nat (scale s)))%Q
  | None => None
  end.

(** ** Strings *)
Module Str.
Local Open Scope string_scope.

Definition ascii_upper (c : ascii) : ascii :=
  let n := nat_of_ascii c in
  if (97 <=? n)%nat && (n <=? 122)%nat then ascii_of_nat (n - 32) else c.

(** [str.upper] on ASCII text *)
Fixpoint upper (s : string) : string :=
  match s with
  | EmptyString => EmptyString
  | String c s' => String (ascii_upper c) (upper s')
  end.

Definition bit_char (b : bool) : ascii := if b then "1"%char else "0"%char.

(** the big-endian bitstring of [b] on [n] digits: digit for bit n-1 first *)
Fixpoint bits_be (n b : nat) : string :=
  match n with
  | O => EmptyString
  | S n' => String (bit_char (Nat.testbit b n')) (bits_be n' b)
  end.

Fixpoint zeros (n : nat) : string :=
  match n with O => EmptyString | S n' => String "0"%char (zeros n') end.

Fixpoint bin_value_aux (s : string) (acc : Z) : option Z :=
  match s with
  | EmptyString => Some acc
  | String c s' =>
      if Ascii.eqb c "0" then bin_value_aux s' (2 * acc)
      else if Ascii.eqb c "1" then bin_value_aux s' (2 * acc + 1)
      else None
  end.

(** [int(s, 2)] on strings of digits: a string with a character other than
    0 and 1 (such as an inner space) or the empty string raises ValueError *)
Definition int_base2 (s : string) : PyResult Z :=
  match s with
  | EmptyString => Raise ValueError
  | _ => match bin_value_aux s 0 with Some v => Ret v | None => Raise ValueError end
  end.

Definition is_bitstring (s : string) : bool :=
  match bin_value_aux s 0 with Some _ => true | None => false end.

Definition hex_char (d : Z) : ascii :=
  if Z.ltb d 10 then ascii_of_nat (48 + Z.to_nat d) else ascii_of_nat (55 + Z.to_nat d).

Fixpoint hex_aux (fuel : nat) (n : Z) (acc : string) : string :=
  match fuel with
  | O => acc
  | S f => let acc' := String (hex_char (n mod 16)) acc in
           if Z.ltb n 16 then acc' else hex_aux f (n / 16) acc'
  end.

(** [hex(n)[2:].upper()] for n >= 0 *)
Definition hex_upper (n : Z) : string := hex_aux (S (Z.to_nat (Z.log2 n))) n EmptyString.

End Str.

(** ** Circuit construction from gate tokens *)
Module Circuits.
Local Open Scope string_scope.

(** [create_quantum_circuit] of qiskit quantum.py and cirqa quantum.py:
    the gates one token contributes, at position [i] on [n] qubits *)
Definition token_ops (n i : nat) (gate : string) : list GateOp :=
  let qubit_idx := (i mod n)%nat in
  let g := Str.upper gate in
  if String.eqb g "H" then [GH qubit_idx]
  else if String.eqb g "X" then [GX qubit_idx]
  else if String.eqb g "Y" then [GY qubit_idx]
  else if String.eqb g "Z" then [GZ qubit_idx]
  else if String.eqb g "CNOT" && (1 <? n)%nat then
    [GCNOT qubit_idx ((qubit_idx + 1) mod n)]
  else if String.eqb g "RZ" then [GRZ 4 qubit_idx]   (* rz(pi/4) *)
  else [].

Fixpoint build_ops (n i : nat) (gates : list string) : list GateOp :=
  match gates with
  | [] => []
  | g :: rest => app (token_ops n i g) (build_ops n (S i) rest)
  end.

Record CircuitEntry := mkEntry {
  c_id : Z;
  c_name : string;
  c_num_qubits : nat;
  c_gates : list string;
  c_ops : list GateOp
}.

(** [self.circuits] (ids 1, 2, ... in insertion order) and the call;
    [i % num_qubits] raises ZeroDivisionError for 0 qubits and a token *)
Definition create_quantum_circuit (circuits : list CircuitEntry) (name : string)
    (num_qubits : nat) (gates : list string) : PyResult (Z * list CircuitEntry) :=
  match num_qubits, gates with
  | O, _ :: _ => Raise ZeroDivisionError
  | _, _ =>
      let circuit_id := Z.of_nat (List.length circuits) + 1 in
      Ret (circuit_id, app circuits [mkEntry circuit_id name num_qubits gates
                                            (build_ops num_qubits 0 gates)])
  end.

(** The default binding policy, as the spec states it for the gate set
    these builders support: position i, single-qubit gate at i mod n,
    CNOT from i mod n to (i mod n + 1) mod n (on at least 2 qubits). *)
Definition spec_binding (n : nat) (p : nat * string) : list GateOp :=
  let '(i, tok) := p in
  let g := Str.upper tok in
  if String.eqb g "CNOT" then
    (if (2 <=? n)%nat then [GCNOT (i mod n) ((i mod n + 1) mod n)] else [])
  else if String.eqb g "H" then [GH (i mod n)]
  else if String.eqb g "X" then [GX (i mod n)]
  else if String.eqb g "Y" then [GY (i mod n)]
  else if String.eqb g "Z" then [GZ (i mod n)]
  else if String.eqb g "RZ" then [GRZ 4 (i mod n)]
  else [].

Definition spec_bindings (n : nat) (gates : list string) : list GateOp :=
  flat_map (spec_binding n) (combine (seq 0 (List.length gates)) gates).

(** [build_quantum_circuit] of qiskit implementation.py (3 qubits) *)
Inductive CircOp := COp (g : GateOp) | CRY (q : nat) | CMeasureAll.

Definition build_token (gate : string) : list CircOp :=
  if String.eqb gate "H" then [COp (GH 0)]
  else if String.eqb gate "X" then [COp (GX 0)]
  else if String.eqb gate "Y" then [COp (GY 0)]
  else if String.eqb gate "Z" then [COp (GZ 0)]
  else if String.eqb gate "CNOT" then [COp (GCNOT 0 1)]
  else if String.eqb gate "RZ" then [COp (GRZ 4 0)]
  else if String.eqb gate "RY" then [CRY 0]           (* ry(pi/4, 0) *)
  else if String.eqb gate "Measure" then [CMeasureAll]
  else [].

Definition build_quantum_circuit (gates : list string) : list CircOp :=
  flat_map build_token gates.

End Circuits.

(** ** Histograms *)
Module Histogram.
Local Open Scope string_scope.

(** a Python dict from bitstring to count, in insertion order *)
Definition Counts := list (string * Z).

Fixpoint dict_get (k : string) (d : Counts) (default : Z) : Z :=
  match d with
  | [] => default
  | (k', v) :: d' => if String.eqb k k' then v else dict_get k d' default
  end.

Fixpoint dict_set (k : string) (v : Z) (d : Counts) : Counts :=
  match d with
  | [] => [(k, v)]
  | (k', v') :: d' => if String.eqb k k' then (k, v) :: d' else (k', v') :: dict_set k v d'
  end.

(** [counts[bitstring] = counts.get(bitstring, 0) + 1] *)
Definition count_add (d : Counts) (k : string) : Counts := dict_set k (dict_get k d 0 + 1) d.


Definition list_set (l : list bool) (k : nat) (v : bool) : list bool :=
  app (firstn k l) (v :: skipn (S k) l).

Definition bool_string (l : list bool) : string :=
  fold_right (fun b s => String (Str.bit_char b) s) EmptyString l.

(** one gate of the classical simulation in [QSharpQuantumLab.execute_circuit];
    [coin] is the [random.choice([0, 1])] an H draws *)
Definition qsharp_gate (n : nat) (coin : bool) (i : nat) (gate : string)
    (state : list bool) : list bool :=
  let qubit_idx := (i mod n)%nat in
  let g := Str.upper gate in
  if String.eqb g "H" then list_set state qubit_idx coin
  else if String.eqb g "X" then list_set state qubit_idx (negb (nth qubit_idx state false))
  else if String.eqb g "CNOT" && (1 <? n)%nat then
    let target := ((qubit_idx + 1) mod n)%nat in
    if nth qubit_idx state false then list_set state target (negb (nth target state false))
    else state
  else state.

Fixpoint qsharp_gates (n : nat) (coins : nat -> bool) (i : nat) (gates : list string)
    (state : list bool) : list bool :=
  match gates with
  | [] => state
  | g :: rest => qsharp_gates n coins (S i) rest (qsharp_gate n (coins i) i g state)
  end.

(** the shot loop: [coins s i] is the draw of gate [i] in shot [s] *)
Fixpoint qsharp_shots (n : nat) (gates : list string) (coins : nat -> nat -> bool)
    (k s : nat) (counts : Counts) : Counts :=
  match k with
  | O => counts
  | S k' =>
      let state := qsharp_gates n (coins s) 0 gates (repeat false n) in
      qsharp_shots n gates coins k' (S s) (count_add counts (bool_string state))
  end.

(** [QSharpQuantumLab.execute_circuit]: the stored shot count and the counts;
    [for _ in range(shots)] runs no shot for shots <= 0 *)
Definition qsharp_execute (num_qubits : nat) (gates : list string) (shots : Z)
    (coins : nat -> nat -> bool) : PyResult (Z * Counts) :=
  match num_qubits, gates with
  | O, _ :: _ => if Z.ltb 0 shots then Raise ZeroDivisionError else Ret (shots, [])
  | _, _ => Ret (shots, qsharp_shots num_qubits gates coins (Z.to_nat shots) 0 [])
  end.

(** [CirqQuantumLab.execute_circuit] (cirqa quantum.py): every repetition
    measures all qubits once; the row lists qubit 0 first *)
Definition row_string (n b : nat) : string :=
  bool_string (map (fun q => Nat.testbit b q) (seq 0 n)).

Definition cirq_execute (e : Circuits.CircuitEntry) (repetitions : nat)
    (rng : nat -> nat) : Z * Counts :=
  let n := Circuits.c_num_qubits e in
  let final := run (Circuits.c_ops e) (initialize n) in
  let measurements := map (fun r => sample final (rng r)) (seq 0 repetitions) in
  (Z.of_nat repetitions, fold_left count_add (map (row_string n) measurements) []).

End Histogram.

(** ** Most likely outcome *)
Module MostLikely.
Import Histogram.

(** [max(counts, key=counts.get)]: the first key of maximal count in
    iteration order (a later key replaces it only with a greater count) *)
Fixpoint max_aux (best : string) (bv : Z) (d : Counts) : string :=
  match d with
  | [] => best
  | (k, v) :: d' => if Z.ltb bv v then max_aux k v d' else max_aux best bv d'
  end.

Definition py_max_key (d : Counts) : PyResult string :=
  match d with
  | [] => Raise ValueError
  | (k, v) :: d' => Ret (max_aux k v d')
  end.


End MostLikely.

(** ** Quantum walk *)
Module Walk.
Import Histogram.






End Walk.

(** ** Backend wrappers with random fallback *)
Module Interface.

Inductive Backend := BQiskit | BCirq | BFallback.

(** ["qiskit" if QISKIT_AVAILABLE else "cirq" if CIRQ_AVAILABLE else "fallback"] *)
Definition select_backend (qiskit_available cirq_available : bool) : Backend :=
  if qiskit_available then BQiskit else if cirq_available then BCirq else BFallback.

(** the backend call the try block makes, if any *)
Definition attempt {A} (qa ca : bool) (qiskit_call cirq_call : PyResult A) : option (PyResult A) :=
  match select_backend qa ca with
  | BQiskit => if qa then Some qiskit_call else None
  | BCirq => if ca then Some cirq_call else None
  | BFallback => None
  end.

(** [try: return backend(...) except Exception as e: print(...)] then the
    fallback value *)
Definition with_fallback {A} (qa ca : bool) (qiskit_call cirq_call : PyResult A) (fallback : A)
    : PyResult A :=
  match attempt qa ca qiskit_call cirq_call with
  | Some (Ret v) => Ret v
  | Some (Raise _) | None => Ret fallback
  end.

Definition b2z (b : bool) : Z := if b then 1 else 0.

(** [QuantumInterface.create_bell_state]; [rnd] are the two [random.randint(0, 1)] *)
Definition create_bell_state (qa ca : bool) (qiskit_call cirq_call : PyResult (Z * Z))
    (rnd : bool * bool) : PyResult (Z * Z) :=
  with_fallback qa ca qiskit_call cirq_call (b2z (fst rnd), b2z (snd rnd)).

(** [QuantumInterface.bb84_key_distribution]; the fallback key has
    [key_length // 2] random bits and [random.uniform(0, 5)] = 5 * u *)
Definition bb84_key_distribution (qa ca : bool) (key_length : Z)
    (qiskit_call cirq_call : PyResult (list bool * Q)) (rnd : nat -> bool) (u : Q)
    : PyResult (list bool * Q) :=
  with_fallback qa ca qiskit_call cirq_call
    (map rnd (seq 0 (Z.to_nat (key_length / 2))), (0 + (5 - 0) * u)%Q).

End Interface.

(** ** Quantum random number generators *)
Module RandomGen.
Local Open Scope string_scope.

Record RandResult := mkRand {
  binary : string;
  decimal : Z;
  hex : string
}.

(** H on qubits 0 .. k-1 from |0...0>, one shot *)
Definition h_layer_outcome (k r : nat) : nat :=
  sample (run (map GH (seq 0 k)) (initialize k)) r.

Definition finish (binary : string) (dec : PyResult Z) : PyResult RandResult :=
  match dec with
  | Ret d => Ret (mkRand binary d (Str.hex_upper d))
  | Raise e => Raise e
  end.




End RandomGen.

(** ** Trial-division factoring *)
Module Shor.





End Shor.

(** ** Teleportation *)
Module Teleport.

(** cirq orders the NamedQubits alice, bob, message: qubits 0, 1, 2 *)
Definition alice : nat := 0.
Definition bob : nat := 1.
Definition message : nat := 2.

(** [CirqQuantumLab.quantum_teleportation] (part_000): the gates before
    the measurements of (message, alice) and of bob; nothing follows *)
Definition circuit : list GateOp :=
  [GX message; GH alice; GCNOT alice bob; GCNOT message alice; GH message].

Definition final_state : State := run circuit (initialize 3).

(** 100 repetitions; [rng r] is the random choice of repetition r *)
Definition outcomes (rng : nat -> nat) : list nat :=
  map (fun r => sample final_state (rng r)) (seq 0 100).

Definition bob_results (rng : nat -> nat) : list bool :=
  map (fun b => Nat.testbit b bob) (outcomes rng).

(** [successes / 100] with a success when bob measured 1 *)
Definition success_rate (rng : nat -> nat) : Q :=
  inject_Z (Z.of_nat (List.length (filter (fun x => x) (bob_results rng)))) / 100.

(** the message qubit as prepared, measured: X|0> *)
Definition message_state : State := run [GX 0] (initialize 1).

End Teleport.

(** ** Further gates: RY(pi/4) and multi-controlled phases *)
Module Ext.

(** [ry(pi/4)] is [[c, -s], [s, c]] with c = cos(pi/8) and s = sin(pi/8);
    2c = zeta^4 + zeta^-4 and 2s = zeta^52 - zeta^44, so the gate adds 2 to
    the scale (a factor 1/2) *)
Definition ry_c : Cyc.t := Cyc.add (Cyc.rot 4 (Cyc.const 1)) (Cyc.rot 60 (Cyc.const 1)).
Definition ry_s : Cyc.t := Cyc.sub (Cyc.rot 52 (Cyc.const 1)) (Cyc.rot 44 (Cyc.const 1)).

(** a [GateOp], [ry(pi/4)] on qubit q, or [mcp(k*pi/32, controls, tg)] *)
Inductive XOp :=
| XG (g : GateOp)
| XRY (q : nat)
| XMCP (k : nat) (controls : list nat) (tg : nat).

Definition apply_x (o : XOp) (s : State) : State :=
  let a := amp s in
  match o with
  | XG g => apply g s
  | XRY q => remap s (S (S (scale s))) (fun b =>
      if bit b q then Cyc.add (Cyc.mul ry_s (a (flip b q))) (Cyc.mul ry_c (a b))
      else Cyc.sub (Cyc.mul ry_c (a b)) (Cyc.mul ry_s (a (flip b q))))
  | XMCP k controls tg => remap s (scale s) (fun b =>
      if forallb (bit b) controls && bit b tg then Cyc.rot k (a b) else a b)
  end.

Definition run_x (ops : list XOp) (s : State) : State :=
  fold_left (fun st o => apply_x o st) ops s.

End Ext.

(** ** The labs of part_000 ([cirq_lab] and [qiskit_lab]) *)
Module Part000.
Import Ext.
Local Open Scope string_scope.

(** the Qiskit count key after [measure_all()] on [QuantumCircuit(k, k)]:
    the [meas] register (bit k-1 first), a space, then the register [c],
    which is never written *)
Definition measure_all_key (k b : nat) : string := Str.bits_be k b ++ " " ++ Str.zeros k.

(** [int(c)] of a one-character string: a decimal digit, else ValueError
    (a lone space is stripped to the empty string) *)
Definition int_char (c : ascii) : PyResult Z :=
  let n := nat_of_ascii c in
  if (48 <=? n)%nat && (n <=? 57)%nat then Ret (Z.of_nat (n - 48)) else Raise ValueError.

(** [[int(bit) for bit in cs]], the first failure propagating *)
Fixpoint int_chars (cs : list ascii) : PyResult (list Z) :=
  match cs with
  | [] => Ret []
  | c :: cs' =>
      match int_char c with
      | Raise e => Raise e
      | Ret v => match int_chars cs' with Ret vs => Ret (v :: vs) | Raise e => Raise e end
      end
  end.

Definition bell_ops : list GateOp := [GH 0; GCNOT 0 1].

(** [CirqQuantumLab.create_bell_state]: one repetition, [(m[0], m[1])] *)
Definition cirq_create_bell_state (r : nat) : Z * Z :=
  let b := sample (run bell_ops (initialize 2)) r in
  (Interface.b2z (Nat.testbit b 0), Interface.b2z (Nat.testbit b 1)).

(** [QiskitQuantumLab.create_bell_state]: the key of the single shot and
    [(int(measurement[1]), int(measurement[0]))] *)
Definition qiskit_create_bell_state (r : nat) : PyResult (Z * Z) :=
  let measurement := measure_all_key 2 (sample (run bell_ops (initialize 2)) r) in
  match String.get 1 measurement, String.get 0 measurement with
  | Some c1, Some c0 =>
      match int_char c1 with
      | Raise e => Raise e
      | Ret x => match int_char c0 with Ret y => Ret (x, y) | Raise e => Raise e end
      end
  | _, _ => Raise (RuntimeErr "IndexError")
  end.

(** the gate tokens of [execute_quantum_circuit] (both labs), on
    qubits 0 and 1 of 3; other tokens add nothing *)
Definition exec_token (gate : string) : list XOp :=
  if String.eqb gate "H" then [XG (GH 0)]
  else if String.eqb gate "X" then [XG (GX 0)]
  else if String.eqb gate "Y" then [XG (GY 0)]
  else if String.eqb gate "Z" then [XG (GZ 0)]
  else if String.eqb gate "CNOT" then [XG (GCNOT 0 1)]
  else if String.eqb gate "RZ" then [XG (GRZ 4 0)]      (* rz(pi/4) *)
  else if String.eqb gate "RY" then [XRY 0]             (* ry(pi/4) *)
  else [].

Definition exec_final (gates : list string) : State :=
  run_x (flat_map exec_token gates) (initialize 3).

(** [CirqQuantumLab.execute_quantum_circuit]: one repetition measuring
    qubits 0, 1, 2, [[int(bit) for bit in measurements]] *)
Definition cirq_execute_quantum_circuit (gates : list string) (r : nat) : list Z :=
  let b := sample (exec_final gates) r in
  map (fun q => Interface.b2z (Nat.testbit b q)) (seq 0 3).

(** [QiskitQuantumLab.execute_quantum_circuit]: [measure_all()] on
    [QuantumCircuit(3, 3)], one shot (so [counts] is not empty), then
    [[int(bit) for bit in reversed(measurement)]] *)
Definition qiskit_execute_quantum_circuit (gates : list string) (r : nat) : PyResult (list Z) :=
  let measurement := measure_all_key 3 (sample (exec_final gates) r) in
  int_chars (rev (list_ascii_of_string measurement)).

(** the number a list of bits denotes, most significant first: what
    [int(s, 2)] reads from their string *)
Definition bits_value (l : list bool) : Z :=
  fold_left (fun acc x => 2 * acc + Interface.b2z x) l 0.

(** [decimal = int(binary, 2) if binary else 0] and its upper-case hex *)
Definition from_bits (binary : string) : PyResult RandomGen.RandResult :=
  match binary with
  | EmptyString => Ret (RandomGen.mkRand "" 0 "0")
  | _ => RandomGen.finish binary (Str.int_base2 binary)
  end.


(** [CirqQuantumLab.quantum_phase_estimation]: counting qubits 0 .. n-1,
    eigenstate qubit n; [2**i] copies of CZ = [GCP 32] from counting
    qubit i; the local inverse QFT *)
Definition qpe_circuit (n : nat) : list GateOp :=
  GX n :: app (map GH (seq 0 n))
    (app (flat_map (fun i => repeat (GCP 32 i n) (2 ^ i)) (seq 0 n)) (QFT.inverse_qft n)).

Record QPEResult := mkQPE {
  estimated_phase : Q;
  measured_binary : string;
  confidence : Q;
  all_measurements : Histogram.Counts
}.

(** [sum(bit * 2**(n-1-i) for i, bit in enumerate(row))] *)
Fixpoint phase_sum (row : string) : Z :=
  match row with
  | EmptyString => 0
  | String c rest =>
      (if Ascii.eqb c "1" then 1 else 0) * 2 ^ Z.of_nat (String.length rest) + phase_sum rest
  end.

(** [Counter.most_common(1)[0]]: the first key of maximal count *)
Definition most_common1 (d : Histogram.Counts) : option (string * Z) :=
  match d with
  | [] => None
  | (k, v) :: d' => let best := MostLikely.max_aux k v d' in Some (best, Histogram.dict_get best d 0)
  end.

(** 100 repetitions, [rng r] the random choice of repetition r; the rows
    (counting qubits only) are the Counter keys *)
Definition quantum_phase_estimation (n : nat) (rng : nat -> nat) : PyResult QPEResult :=
  let final := run (qpe_circuit n) (initialize (S n)) in
  let rows := map (fun r => Histogram.row_string n (sample final (rng r))) (seq 0 100) in
  let counts := fold_left Histogram.count_add rows [] in
  match most_common1 counts with
  | None => Raise (RuntimeErr "IndexError")
  | Some (row, c) =>
      Ret (mkQPE (inject_Z (phase_sum row) / inject_Z (2 ^ Z.of_nat n)) row (inject_Z c / 100) counts)
  end.

(** [QiskitQuantumLab.grovers_algorithm] for a nonnegative [marked_item];
    [iterations] is [int(np.pi/4 * np.sqrt(2**n_qubits))], computed in
    floating point.  [format(marked_item, '0nb')] is [bits_be n] when
    [marked_item < 2**n], the only case in which it is used. *)
Definition grover_circuit (n_qubits marked_item iterations : nat) : list XOp :=
  let hs := map (fun q => XG (GH q)) (seq 0 n_qubits) in
  let xs := map (fun q => XG (GX q)) (seq 0 n_qubits) in
  let mcp := XMCP 32 (seq 0 (n_qubits - 1)) (n_qubits - 1) in
  let flips := flat_map (fun p => if Ascii.eqb (snd p) "0" then [XG (GX (fst p))] else [])
                 (combine (seq 0 n_qubits) (list_ascii_of_string (Str.bits_be n_qubits marked_item))) in
  let oracle := if (marked_item <? 2 ^ n_qubits)%nat then app flips (mcp :: flips) else [] in
  app hs (List.concat (repeat (app oracle (app hs (app xs (mcp :: app xs hs)))) iterations)).

Record GroverResult := mkGrover {
  found_item : Z;
  probability : Q;
  iterations_used : nat;
  all_results : Histogram.Counts
}.

(** 1024 shots of [measure_all()], [rng s] the random choice of shot s;
    [max(counts, key=counts.get)], then [int(most_likely, 2)] *)
Definition grovers_algorithm (n_qubits marked_item iterations : nat) (rng : nat -> nat)
    : PyResult GroverResult :=
  let final := run_x (grover_circuit n_qubits marked_item iterations) (initialize n_qubits) in
  let keys := map (fun s => measure_all_key n_qubits (sample final (rng s))) (seq 0 1024) in
  let counts := fold_left Histogram.count_add keys [] in
  match MostLikely.py_max_key counts with
  | Raise e => Raise e
  | Ret most_likely =>
      let probability := (inject_Z (Histogram.dict_get most_likely counts 0) / 1024)%Q in
      match Str.int_base2 most_likely with
      | Raise e => Raise e
      | Ret v => Ret (mkGrover v probability iterations counts)
      end
  end.

End Part000.

(** ** The interface wrappers over the part_000 labs *)
Module InterfaceMore.
Local Open Scope string_scope.

(** [QuantumInterface.execute_circuit]; [rnd] are the three [random.randint(0, 1)] *)
Definition execute_circuit (qa ca : bool) (qiskit_call cirq_call : PyResult (list Z))
    (rnd : nat -> bool) : PyResult (list Z) :=
  Interface.with_fallback qa ca qiskit_call cirq_call
    (map (fun i => Interface.b2z (rnd i)) (seq 0 3)).


(** the wrappers that only try Qiskit *)
Definition qiskit_only {A} (qa ca : bool) (qiskit_call : PyResult A) (fallback : A) : PyResult A :=
  match Interface.select_backend qa ca with
  | Interface.BQiskit =>
      if qa then match qiskit_call with Ret v => Ret v | Raise _ => Ret fallback end
      else Ret fallback
  | _ => Ret fallback
  end.

(** [format(m, '0wb')] for m >= 0: at least w digits, and all of m's *)
Definition format_bin (width m : nat) : string :=
  Str.bits_be (Nat.max width (S (Nat.log2 m))) m.

(** [QuantumInterface.grovers_algorithm]; [u] is the [random.random()]
    behind [random.uniform(0.8, 1.0)] and [iterations_used] the float
    expression [int(3.14159/4 * (2**n_qubits)**0.5)] *)
Definition grovers_algorithm (qa ca : bool) (n_qubits marked_item : nat)
    (qiskit_call : PyResult Part000.GroverResult) (u : Q) (iterations_used : nat)
    : PyResult Part000.GroverResult :=
  qiskit_only qa ca qiskit_call
    (Part000.mkGrover (Z.of_nat marked_item) ((8 # 10) + ((1 # 1) - (8 # 10)) * u)%Q
       iterations_used [(format_bin n_qubits marked_item, 800)]).

End InterfaceMore.

(** ** Key distribution and encryption of cirqa quantum.py and the Q# lab *)
Module Crypto.
Local Open Scope string_scope.

Definition hex_char_lower (d : Z) : ascii :=
  if Z.ltb d 10 then ascii_of_nat (48 + Z.to_nat d) else ascii_of_nat (87 + Z.to_nat d).

Fixpoint hex_aux_lower (fuel : nat) (n : Z) (acc : string) : string :=
  match fuel with
  | O => acc
  | S f => let acc' := String (hex_char_lower (n mod 16)) acc in
           if Z.ltb n 16 then acc' else hex_aux_lower f (n / 16) acc'
  end.

(** [hex(n)[2:]] for n >= 0 *)
Definition hex_lower (n : Z) : string :=
  hex_aux_lower (S (Z.to_nat (Z.log2 n))) n EmptyString.

Record KeyRecord := mkKeyRecord {
  kr_id : Z;
  kr_key_length : nat;
  kr_key_binary : string;
  kr_key_hex : string;
  kr_error_rate : Q;
  kr_efficiency : Q;
  kr_security_level : string
}.

(** [bb84_key_distribution] of [CirqQuantumLab] (cirqa quantum.py) and of
    [QSharpQuantumLab]: the three lists of [random.randint(0, 1)], [u] the
    [random.random()] behind [random.uniform(0, 0.05)]; the measurements
    the Cirq version makes are never read.  The dict literal computes
    [key_hex] before [efficiency]; the record is stored under
    [len(self.crypto_keys) + 1]. *)
Definition bb84_key_distribution (crypto_keys : list KeyRecord)
    (alice_bits alice_bases bob_bases : nat -> bool) (u : Q) (key_length : Z)
    : PyResult (KeyRecord * list KeyRecord) :=
  let idx := seq 0 (Z.to_nat (key_length * 2)) in
  let shared := map alice_bits
      (filter (fun i => Bool.eqb (alice_bases i) (bob_bases i)) idx) in
  let final_key := BB84.take_key key_length shared in
  let error_rate := (0 + ((5 # 100) - 0) * u)%Q in
  let key_id := Z.of_nat (List.length crypto_keys) + 1 in
  let key_binary := Histogram.bool_string final_key in
  let key_hex := match final_key with
                 | [] => Ret "0"
                 | _ => match Str.int_base2 key_binary with
                        | Ret v => Ret (hex_lower v)
                        | Raise e => Raise e
                        end
                 end in
  match key_hex with
  | Raise e => Raise e
  | Ret kh =>
      match idx with
      | [] => Raise ZeroDivisionError
      | _ =>
          let efficiency := (inject_Z (Z.of_nat (List.length final_key))
                             / inject_Z (Z.of_nat (List.length idx)))%Q in
          let security_level :=
            if negb (Qle_bool (11 # 100) error_rate) then "HIGH" else "COMPROMISED" in
          let key_data := mkKeyRecord key_id (List.length final_key) key_binary kh
                            error_rate efficiency security_level in
          Ret (key_data, app crypto_keys [key_data])
      end
  end.

(** [int.to_bytes(length, 'big')] *)
Definition to_bytes (length : nat) (v : Z) : PyResult (list Z) :=
  if Z.leb 0 v && Z.ltb v (256 ^ Z.of_nat length) then
    Ret (map (fun i => (v / 256 ^ Z.of_nat (length - 1 - i)) mod 256) (seq 0 length))
  else Raise (RuntimeErr "OverflowError").

(** [for i, byte in enumerate(message_bytes):
       encrypted.append(byte ^ key_bytes[i % len(key_bytes)])];
    [bytearray.append] raises ValueError outside range(0, 256) *)
Fixpoint xor_loop (key_bytes : list Z) (i : nat) (message_bytes acc : list Z) : PyResult (list Z) :=
  match message_bytes with
  | [] => Ret acc
  | byte :: rest =>
      match key_bytes with
      | [] => Raise ZeroDivisionError
      | _ =>
          let x := Z.lxor byte (nth (i mod List.length key_bytes) key_bytes 0) in
          if Z.leb 0 x && Z.ltb x 256 then xor_loop key_bytes (S i) rest (app acc [x])
          else Raise ValueError
      end
  end.

(** [bytearray.hex()] *)
Definition bytes_hex (l : list Z) : string :=
  fold_right (fun x s => String (hex_char_lower (x / 16)) (String (hex_char_lower (x mod 16)) s))
             EmptyString l.

Record PQResult := mkPQ {
  encrypted : list Z;
  encrypted_data : string;
  key_id : string
}.

(** the common body of [post_quantum_encrypt]: [message_bytes] is
    [message.encode('utf-8')] *)
Definition encrypt_with (quantum_key : string) (message_bytes : list Z) : PyResult PQResult :=
  match Str.int_base2 quantum_key with
  | Raise e => Raise e
  | Ret key_int =>
      match to_bytes 32 key_int with
      | Raise e => Raise e
      | Ret key_bytes =>
          match xor_loop key_bytes 0 message_bytes [] with
          | Raise e => Raise e
          | Ret enc => Ret (mkPQ enc (bytes_hex enc) (substring 0 32 quantum_key))
          end
      end
  end.

(** cirqa quantum.py: the key is the row of 256 H-qubits, qubit 0 first *)
Definition cirq_post_quantum_encrypt (message_bytes : list Z) (r : nat) : PyResult PQResult :=
  encrypt_with (Histogram.row_string 256 (RandomGen.h_layer_outcome 256 r)) message_bytes.

(** qiskit quantum.py: the key is [max(counts.keys())] of a single shot of
    [measure_all()] on [QuantumCircuit(256, 256)] *)
Definition qiskit_post_quantum_encrypt (message_bytes : list Z) (r : nat) : PyResult PQResult :=
  encrypt_with (Part000.measure_all_key 256 (RandomGen.h_layer_outcome 256 r)) message_bytes.



(** [QSharpQuantumLab.quantum_random_number_generator]: [rnd i] is the
    i-th [random.randint(0, 1)] *)
Definition qsharp_qrng (num_bits : nat) (rnd : nat -> bool) : PyResult RandomGen.RandResult :=
  Part000.from_bits (Histogram.bool_string (map rnd (seq 0 num_bits))).

(** [CirqQuantumLab.quantum_fourier_transform] (cirqa quantum.py): X on
    the even qubits, then the loops of [_apply_qft]; 1000 repetitions *)
Definition qft_circuit (n : nat) : list GateOp :=
  app (map GX (filter Nat.even (seq 0 n))) (QFT.apply_qft n).

Definition qft_final (n : nat) : State := run (qft_circuit n) (initialize n).

Definition quantum_fourier_transform (n : nat) (rng : nat -> nat) : Histogram.Counts :=
  fold_left Histogram.count_add
    (map (fun r => Histogram.row_string n (sample (qft_final n) (rng r))) (seq 0 1000)) [].

End Crypto.

(** ** The circuit store of qiskit quantum.py and cirqa quantum.py *)
Module Store.
Import Circuits.

(** [if circuit_id not in self.circuits: raise ValueError(...)] and
    [self.circuits[circuit_id]], as [get_circuit_info] and
    [execute_circuit] begin; the depth and qasm it reports are printed
    from the stored circuit *)
Definition get_circuit_info (circuits : list CircuitEntry) (circuit_id : Z) : PyResult CircuitEntry :=
  match find (fun e => Z.eqb (c_id e) circuit_id) circuits with
  | Some e => Ret e
  | None => Raise ValueError
  end.

(** [[self.get_circuit_info(cid) for cid in self.circuits.keys()]] *)
Definition list_circuits (circuits : list CircuitEntry) : PyResult (list CircuitEntry) :=
  fold_right (fun cid acc =>
      match get_circuit_info circuits cid, acc with
      | Ret e, Ret es => Ret (e :: es)
      | Raise x, _ => Raise x
      | _, Raise x => Raise x
      end) (Ret []) (map c_id circuits).

(** [CirqQuantumLab.execute_circuit] by id *)
Definition execute_circuit (circuits : list CircuitEntry) (circuit_id : Z) (repetitions : nat)
    (rng : nat -> nat) : PyResult (Z * Histogram.Counts) :=
  match get_circuit_info circuits circuit_id with
  | Raise e => Raise e
  | Ret e => Ret (Histogram.cirq_execute e repetitions rng)
  end.

End Store.

(** * Properties *)

(** ** BB84 *)
Module BB84Facts.
Import BB84.

(** With matching bases the one-qubit state is a basis state, so its
    only possible outcome is the prepared bit. *)
Lemma measure_bit_matching (t : Trial) :
  alice_basis t = bob_basis t -> measure_bit t = b2n (alice_bit t).
Proof.
  destruct t as [b a bb r]; simpl; intros ->.
  unfold measure_bit; simpl.
  destruct b, bb; unfold sample;
    match goal with
    | |- nth _ (support ?s) _ = _ => let l := eval vm_compute in (support s) in
                                     change (support s) with l
    end; simpl List.length; rewrite Nat.mod_1_r; reflexivity.
Qed.

Lemma loop_no_errors (draws : nat -> Trial) (key_length : Z) (fuel : nat) :
  forall i key, snd (loop draws key_length fuel i key 0) = 0%nat.
Proof.
  induction fuel as [|fuel IH]; intros i key; simpl; [reflexivity|].
  destruct (Bool.eqb (alice_basis (draws i)) (bob_basis (draws i))) eqn:E.
  - apply Bool.eqb_prop in E.
    rewrite (measure_bit_matching _ E), Nat.eqb_refl.
    destruct (Z.leb _ _); [reflexivity | apply IH].
  - apply IH.
Qed.

Lemma error_rate_zero (draws : nat -> Trial) (key_length : Z) :
  (snd (bb84_key_distribution draws key_length) == 0)%Q.
Proof.
  unfold bb84_key_distribution.
  pose proof (loop_no_errors draws key_length (Z.to_nat (key_length * 2)) 0 []) as H.
  destruct (loop _ _ _ _ _ _) as [key errors]; simpl in H; subst errors.
  destruct key; simpl; [reflexivity|].
  unfold Qdiv, Qmult; simpl; reflexivity.
Qed.

End BB84Facts.

(** C1 (amended): in the part_000 labs the error rate is computed from the
    sifted measurements, and on the noiseless simulator it is exactly 0
    for every run; the [bb84_key_distribution] of qiskit quantum.py
    reports [random.uniform(0, 0.05)] whatever is measured. *)
Theorem bb84_error_rate_by_variant :
  (forall (draws : nat -> BB84.Trial) (key_length : Z),
      (snd (BB84.bb84_key_distribution draws key_length) == 0)%Q) /\
  (forall alice_bits alice_bases bob_bases u key_length,
      match BB84.bb84_key_distribution_v1 alice_bits alice_bases bob_bases u key_length with
      | Ret kd => (BB84.kd_error_rate kd == (5 # 100) * u)%Q
      | Raise _ => True
      end).
Proof.
  split.
  - exact BB84Facts.error_rate_zero.
  - intros ab abs bbs u kl; unfold BB84.bb84_key_distribution_v1.
    destruct (BB84.take_key _ _); simpl; [exact I | ring].
Qed.

(** C1 (counterexample): a run of the qiskit quantum.py BB84 with
    key_length 1 reports error rate 1/40 although every sifted bit was
    measured without a modelled noise source. *)
Lemma bb84_v1_nonzero_error_rate :
  exists kd, BB84.bb84_key_distribution_v1 (fun _ => false) (fun _ => false) (fun _ => false)
               (1 # 2) 1 = Ret kd /\ ~ (BB84.kd_error_rate kd == 0)%Q.
Proof.
  eexists; split; [vm_compute; reflexivity|].
  vm_compute; discriminate.
Qed.

(** ** Circuit construction *)
Module CircuitFacts.
Import Circuits.

Lemma build_ops_app (n : nat) (gs1 gs2 : list string) : forall i,
  build_ops n i (gs1 ++ gs2) = build_ops n i gs1 ++ build_ops n (i + List.length gs1) gs2.
Proof.
  induction gs1 as [|g gs1 IH]; intros i; simpl.
  - now rewrite Nat.add_0_r.
  - rewrite IH, app_assoc. do 2 f_equal. lia.
Qed.

Definition supported (tok : string) : Prop :=
  In (Str.upper tok) ["H"; "X"; "Y"; "Z"; "CNOT"; "RZ"]%string.

Lemma token_ops_unsupported (n i : nat) (tok : string) :
  ~ supported tok -> token_ops n i tok = [].
Proof.
  unfold supported, token_ops; simpl; intros Hn.
  destruct (String.eqb_spec (Str.upper tok) "H"); [exfalso; apply Hn; rewrite e; simpl; intuition|].
  destruct (String.eqb_spec (Str.upper tok) "X"); [exfalso; apply Hn; rewrite e; simpl; intuition|].
  destruct (String.eqb_spec (Str.upper tok) "Y"); [exfalso; apply Hn; rewrite e; simpl; intuition|].
  destruct (String.eqb_spec (Str.upper tok) "Z"); [exfalso; apply Hn; rewrite e; simpl; intuition|].
  destruct (String.eqb_spec (Str.upper tok) "CNOT"); [exfalso; apply Hn; rewrite e; simpl; intuition|].
  destruct (String.eqb_spec (Str.upper tok) "RZ"); [exfalso; apply Hn; rewrite e; simpl; intuition|].
  reflexivity.
Qed.

Lemma token_ops_spec (n i : nat) (tok : string) :
  token_ops n i tok = spec_binding n (i, tok).
Proof.
  unfold token_ops, spec_binding.
  remember (Str.upper tok) as u eqn:Hu; clear Hu.
  destruct (String.eqb_spec u "CNOT"); [subst; reflexivity|].
  destruct (String.eqb_spec u "H"); [subst; reflexivity|].
  destruct (String.eqb_spec u "X"); [subst; reflexivity|].
  destruct (String.eqb_spec u "Y"); [subst; reflexivity|].
  destruct (String.eqb_spec u "Z"); [subst; reflexivity|].
  destruct (String.eqb_spec u "RZ"); [subst; reflexivity|].
  reflexivity.
Qed.

Lemma build_ops_spec (n : nat) (gates : list string) : forall i,
  build_ops n i gates = flat_map (spec_binding n) (combine (seq i (List.length gates)) gates).
Proof.
  induction gates as [|g gates IH]; intros i; simpl; [reflexivity|].
  rewrite token_ops_spec, IH; reflexivity.
Qed.

End CircuitFacts.

(** C2 (counterexample): [create_circuit("x", 2, ["BOGUS"])] raises
    nothing; it stores an empty circuit and returns id 1. *)
Lemma create_circuit_bogus_returns_id :
  Circuits.create_quantum_circuit [] "x"%string 2 ["BOGUS"%string]
  = Ret (1, [Circuits.mkEntry 1 "x"%string 2 ["BOGUS"%string] []]).
Proof. reflexivity. Qed.

(** C2 (amended): on at least one qubit, construction never raises: the
    circuit is stored under the next id and that id returned, and a token
    outside H, X, Y, Z, CNOT, RZ (case-insensitive) contributes no gate
    while still taking its position. *)
Theorem create_circuit_skips_unknown_tokens (circuits : list Circuits.CircuitEntry)
    (name : string) (n : nat) (gates : list string) :
  (1 <= n)%nat ->
  Circuits.create_quantum_circuit circuits name n gates
  = Ret (Z.of_nat (List.length circuits) + 1,
         circuits ++ [Circuits.mkEntry (Z.of_nat (List.length circuits) + 1) name n gates
                                       (Circuits.build_ops n 0 gates)]) /\
  (forall gs1 tok gs2, ~ CircuitFacts.supported tok ->
     Circuits.build_ops n 0 (gs1 ++ tok :: gs2)
     = Circuits.build_ops n 0 gs1 ++ Circuits.build_ops n (S (List.length gs1)) gs2).
Proof.
  intros Hn; split.
  - destruct n; [lia|]; destruct gates; reflexivity.
  - intros gs1 tok gs2 Htok.
    rewrite CircuitFacts.build_ops_app; simpl.
    rewrite (CircuitFacts.token_ops_unsupported _ _ _ Htok); reflexivity.
Qed.

Lemma create_circuit_skips_unknown_tokens_witness :
  (1 <= 2)%nat /\
  Circuits.create_quantum_circuit [] "x"%string 2 ["BOGUS"%string]
  = Ret (Z.of_nat (List.length (@nil Circuits.CircuitEntry)) + 1,
         [] ++ [Circuits.mkEntry (Z.of_nat (List.length (@nil Circuits.CircuitEntry)) + 1) "x"%string 2
                  ["BOGUS"%string] (Circuits.build_ops 2 0 ["BOGUS"%string])]).
Proof.
  split; [lia|].
  exact (proj1 (create_circuit_skips_unknown_tokens [] "x" 2 ["BOGUS"%string] ltac:(lia))).
Defined.

(** ** Teleportation *)

(** C3 (code defect): no Pauli correction is applied to bob's qubit before
    it is measured, so with the message prepared as |1> (outcome 0 has
    probability 0) bob measures 0 with probability exactly 1/2, and a run in
    which every repetition selects the first possible outcome reports a
    success rate of 0 instead of 1. *)
Theorem teleport_bob_uncorrected :
  match born_prob Teleport.final_state (fun b => negb (Nat.testbit b Teleport.bob)) with
  | Some p => (p == 1 # 2)%Q
  | None => False
  end /\
  match born_prob Teleport.message_state (fun b => negb (Nat.testbit b 0)) with
  | Some p => (p == 0)%Q
  | None => False
  end /\
  (Teleport.success_rate (fun _ => 0%nat) == 0)%Q.
Proof. vm_compute; repeat split; reflexivity. Qed.

(** ** QFT round trip *)
Module QFTFacts.

(** close the goal for b = 0, 1, ... until the bound on b is violated *)
Ltac basis_cases b :=
  repeat ((exfalso; lia) || (destruct b as [|b]; [vm_compute; repeat split; reflexivity|])).

End QFTFacts.

(** C4 (counterexample): Cirq's [_apply_qft] on 2 qubits followed by
    [inverse_qft] sends |01> to a state whose component at |01> is off by
    a squared modulus of exactly 1/2, far above (1e-9)^2. *)
Lemma qft_cirq_roundtrip_error :
  match err2 (QFT.roundtrip 2 (QFT.basis 2 1)) (QFT.basis 2 1) 1 with
  | Some e => (e == 1 # 2)%Q /\ ((1 # 1000000000) * (1 # 1000000000) < e)%Q
  | None => False
  end.
Proof. vm_compute; split; reflexivity. Qed.

(** C4 (amended): [inverse_qft] inverts the Qiskit-ordered construction
    [quantum_fourier_transform]: on n <= 6 qubits the round trip returns
    every basis state exactly (2n Hadamards give the scale sqrt(2)^(2n) =
    2^n, and every amplitude is 2^n times the original). *)
Theorem qft_qiskit_roundtrip_basis (n b : nat) :
  (1 <= n <= 6)%nat -> (b < 2 ^ n)%nat ->
  let s := run (QFT.quantum_fourier_transform n ++ QFT.inverse_qft n) (QFT.basis n b) in
  nqubits s = n /\ scale s = (2 * n)%nat /\
  amps s = map (Cyc.scal (2 ^ Z.of_nat n)) (amps (QFT.basis n b)).
Proof.
  intros Hn Hb.
  destruct n as [|[|[|[|[|[|[|n]]]]]]]; try lia; simpl in Hb; QFTFacts.basis_cases b.
Qed.

Lemma qft_qiskit_roundtrip_basis_witness :
  let s := run (QFT.quantum_fourier_transform 3 ++ QFT.inverse_qft 3) (QFT.basis 3 5) in
  nqubits s = 3%nat /\ scale s = (2 * 3)%nat /\
  amps s = map (Cyc.scal (2 ^ Z.of_nat 3)) (amps (QFT.basis 3 5)).
Proof. exact (qft_qiskit_roundtrip_basis 3 5 ltac:(lia) ltac:(simpl; lia)). Defined.

(** ** Binding policy *)

(** C5 (counterexample): [build_quantum_circuit] of qiskit implementation.py
    binds the H token at position 1 to qubit 0, not to 1 mod 3; and
    [create_quantum_circuit] binds no gate for a CNOT on one qubit. *)
Lemma binding_policy_counterexample :
  Circuits.build_quantum_circuit ["X"; "H"]%string = [Circuits.COp (GX 0); Circuits.COp (GH 0)] /\
  (1 mod 3 <> 0)%nat /\
  Circuits.token_ops 1 0 "CNOT"%string = [].
Proof. split; [reflexivity | split; [discriminate | reflexivity]]. Qed.

(** C5 (amended): [create_quantum_circuit] stores, in token order, the
    gates of the default binding policy (single-qubit H, X, Y, Z, RZ at
    i mod n, CNOT on (i mod n, (i mod n + 1) mod n) when n >= 2, other
    tokens and CNOT on one qubit dropped), while [build_quantum_circuit]
    binds every token to qubit 0, and CNOT to (0, 1). *)
Theorem binding_policy_by_builder :
  (forall circuits name (n : nat) gates, (1 <= n)%nat ->
     Circuits.create_quantum_circuit circuits name n gates
     = Ret (Z.of_nat (List.length circuits) + 1,
            circuits ++ [Circuits.mkEntry (Z.of_nat (List.length circuits) + 1) name n gates
                                          (Circuits.spec_bindings n gates)])) /\
  (forall gates op, In op (Circuits.build_quantum_circuit gates) ->
     In op [Circuits.COp (GH 0); Circuits.COp (GX 0); Circuits.COp (GY 0); Circuits.COp (GZ 0);
            Circuits.COp (GCNOT 0 1); Circuits.COp (GRZ 4 0); Circuits.CRY 0; Circuits.CMeasureAll]).
Proof.
  split.
  - intros circuits name n gates Hn.
    unfold Circuits.spec_bindings; rewrite <- CircuitFacts.build_ops_spec.
    destruct n; [lia|]; destruct gates; reflexivity.
  - intros gates op; unfold Circuits.build_quantum_circuit; rewrite in_flat_map.
    intros [g [_ Hg]]; unfold Circuits.build_token in Hg.
    repeat (destruct (String.eqb g _); [simpl in Hg |- *; intuition congruence|]).
    destruct Hg.
Qed.

Lemma binding_policy_by_builder_witness :
  Circuits.create_quantum_circuit [] "c"%string 3%nat ["H"; "CNOT"]%string
  = Ret (Z.of_nat (List.length (@nil Circuits.CircuitEntry)) + 1, [] ++ [Circuits.mkEntry (Z.of_nat (List.length (@nil Circuits.CircuitEntry)) + 1) "c"%string 3%nat ["H"; "CNOT"]%string
                 (Circuits.spec_bindings 3 ["H"; "CNOT"]%string)]) /\
  In (Circuits.COp (GCNOT 0 1))
     [Circuits.COp (GH 0); Circuits.COp (GX 0); Circuits.COp (GY 0); Circuits.COp (GZ 0);
      Circuits.COp (GCNOT 0 1); Circuits.COp (GRZ 4 0); Circuits.CRY 0; Circuits.CMeasureAll].
Proof.
  split.
  - exact (proj1 binding_policy_by_builder [] "c"%string 3%nat ["H"; "CNOT"]%string ltac:(lia)).
  - apply (proj2 binding_policy_by_builder ["CNOT"]%string); simpl; left; reflexivity.
Defined.

(** ** Histograms *)
Module HistogramFacts.
Import Histogram.









End HistogramFacts.




(** ** Most likely outcome *)
Module MostLikelyFacts.
Import Histogram MostLikely.


End MostLikelyFacts.




(** ** Backend wrappers *)

(** C8 (counterexample): when the Qiskit backend is selected and its
    [create_bell_state] raises, [QuantumInterface.create_bell_state]
    returns the random pair instead of raising; likewise
    [bb84_key_distribution] returns a random key of [key_length // 2] bits
    with a random error rate. *)
Lemma interface_masks_backend_error :
  Interface.create_bell_state true false (Raise (RuntimeErr "backend failure"%string)) (Ret (0, 0))
    (true, false) = Ret (1, 0) /\
  Interface.bb84_key_distribution true false 4 (Raise (RuntimeErr "backend failure"%string))
    (Ret ([], 0%Q)) (fun _ => true) (1 # 2) = Ret ([true; true], (0 + (5 - 0) * (1 # 2))%Q).
Proof. split; reflexivity. Qed.

(** C8 (amended): the [QuantumInterface] wrappers never raise.  They
    return the result of the selected backend (Qiskit if available, else
    Cirq if available) when that call succeeds, and the random fallback
    value when the call raises or no backend is available. *)
Theorem interface_falls_back_to_random :
  (forall qa ca (qc cc : PyResult (Z * Z)) rnd,
     (exists v, Interface.create_bell_state qa ca qc cc rnd = Ret v) /\
     Interface.create_bell_state qa ca qc cc rnd =
       (let fb := (Interface.b2z (fst rnd), Interface.b2z (snd rnd)) in
        if qa then match qc with Ret v => Ret v | Raise _ => Ret fb end
        else if ca then match cc with Ret v => Ret v | Raise _ => Ret fb end
        else Ret fb)) /\
  (forall qa ca key_length (qc cc : PyResult (list bool * Q)) rnd u,
     (exists v, Interface.bb84_key_distribution qa ca key_length qc cc rnd u = Ret v) /\
     Interface.bb84_key_distribution qa ca key_length qc cc rnd u =
       (let fb := (map rnd (seq 0 (Z.to_nat (key_length / 2))), (0 + (5 - 0) * u)%Q) in
        if qa then match qc with Ret v => Ret v | Raise _ => Ret fb end
        else if ca then match cc with Ret v => Ret v | Raise _ => Ret fb end
        else Ret fb)).
Proof.
  split.
  - intros qa ca qc cc rnd; unfold Interface.create_bell_state, Interface.with_fallback,
      Interface.attempt, Interface.select_backend.
    destruct qa, ca, qc, cc; split; (eexists; reflexivity) || reflexivity.
  - intros qa ca kl qc cc rnd u; unfold Interface.bb84_key_distribution, Interface.with_fallback,
      Interface.attempt, Interface.select_backend.
    destruct qa, ca, qc, cc; split; (eexists; reflexivity) || reflexivity.
Qed.

(** ** Random generators *)
Module RandomGenFacts.
Import RandomGen.
Local Open Scope string_scope.





Lemma mod_pow2_succ (b n : nat) :
  (b mod 2 ^ S n = b mod 2 ^ n + 2 ^ n * Nat.b2n (Nat.testbit b n))%nat.
Proof.
  rewrite Nat.pow_succ_r', (Nat.mul_comm 2), Nat.Div0.mod_mul_r.
  rewrite Nat.testbit_spec'; reflexivity.
Qed.

Lemma bin_value_bits_be (n : nat) : forall b acc,
  Str.bin_value_aux (Str.bits_be n b) acc = Some (acc * 2 ^ Z.of_nat n + Z.of_nat (b mod 2 ^ n)).
Proof.
  induction n as [|n IH]; intros b acc.
  - cbn [Str.bits_be Str.bin_value_aux]; rewrite Nat.pow_0_r, Nat.mod_1_r; f_equal; lia.
  - cbn [Str.bits_be]; rewrite mod_pow2_succ.
    assert (Hp : 2 ^ Z.of_nat (S n) = 2 * 2 ^ Z.of_nat n) by (rewrite Nat2Z.inj_succ, Z.pow_succ_r; lia).
    rewrite Hp, Nat2Z.inj_add, Nat2Z.inj_mul, Nat2Z.inj_pow.
    destruct (Nat.testbit b n); cbn [Str.bit_char Str.bin_value_aux Ascii.eqb Bool.eqb];
      rewrite IH; f_equal; simpl Nat.b2n; simpl Z.of_nat; ring.
Qed.



Lemma length_app (s t : string) : String.length (s ++ t) = (String.length s + String.length t)%nat.
Proof. induction s; simpl; congruence. Qed.




Lemma bin_value_app (s : string) : forall t acc,
  Str.bin_value_aux (s ++ t) acc =
  match Str.bin_value_aux s acc with Some v => Str.bin_value_aux t v | None => None end.
Proof.
  induction s as [|c s IH]; intros t acc; simpl; [reflexivity|].
  destruct (Ascii.eqb c "0"); [apply IH|]; destruct (Ascii.eqb c "1"); [apply IH | reflexivity].
Qed.





End RandomGenFacts.




(** ** Trial-division factoring *)
Module ShorFacts.
Import Shor.






Section Invariant.
Variable N : Z.





End Invariant.



End ShorFacts.



(** * Further properties of the labs *)

(** ** Amplitudes that stay zero *)
Module ZeroFacts.
Import Ext.

Lemma in_skipn_sub {A} (n : nat) : forall (l : list A) x, In x (skipn n l) -> In x l.
Proof. induction n; intros [|y l] x H; simpl in *; auto. Qed.

Lemma in_firstn_sub {A} (n : nat) : forall (l : list A) x, In x (firstn n l) -> In x l.
Proof. induction n; intros [|y l] x H; simpl in *; try tauto. destruct H; auto. Qed.

Definition zeroes (a : Cyc.t) : Prop := Forall (fun z => z = 0) a.

Lemma zero_zeroes : zeroes Cyc.zero.
Proof. unfold zeroes, Cyc.zero; apply Forall_forall; intros x Hx; apply repeat_spec in Hx; exact Hx. Qed.

Lemma zip_with_zeroes (f : Z -> Z -> Z) (Hf : f 0 0 = 0) : forall a b,
  zeroes a -> zeroes b -> zeroes (Cyc.zip_with f a b).
Proof.
  induction a as [|x a IH]; intros [|y b] Ha Hb; simpl; [constructor | constructor | constructor|].
  inversion Ha; inversion Hb; subst; constructor; [exact Hf | apply IH; assumption].
Qed.

Lemma add_zeroes (a b : Cyc.t) : zeroes a -> zeroes b -> zeroes (Cyc.add a b).
Proof. apply zip_with_zeroes; reflexivity. Qed.

Lemma sub_zeroes (a b : Cyc.t) : zeroes a -> zeroes b -> zeroes (Cyc.sub a b).
Proof. apply zip_with_zeroes; reflexivity. Qed.

Lemma opp_zeroes (a : Cyc.t) : zeroes a -> zeroes (Cyc.opp a).
Proof.
  unfold Cyc.opp, zeroes; rewrite !Forall_forall; intros H x Hx.
  apply in_map_iff in Hx as [y [<- Hy]]; rewrite (H y Hy); reflexivity.
Qed.

Lemma shift_zeroes (j : nat) (a : Cyc.t) : zeroes a -> zeroes (Cyc.shift j a).
Proof.
  intros H; unfold Cyc.shift; apply Forall_app; split.
  - apply opp_zeroes; unfold zeroes in *; rewrite Forall_forall in *.
    intros x Hx; apply H, (in_skipn_sub _ _ _ Hx).
  - unfold zeroes in *; rewrite Forall_forall in *; intros x Hx; apply H, (in_firstn_sub _ _ _ Hx).
Qed.

Lemma rot_zeroes (k : nat) (a : Cyc.t) : zeroes a -> zeroes (Cyc.rot k a).
Proof.
  intros H; unfold Cyc.rot; destruct (Nat.ltb _ _); [apply shift_zeroes, H|].
  apply opp_zeroes, shift_zeroes, H.
Qed.

Lemma scal_zeroes (z : Z) (a : Cyc.t) : zeroes a -> zeroes (Cyc.scal z a).
Proof.
  unfold Cyc.scal, zeroes; rewrite !Forall_forall; intros H x Hx.
  apply in_map_iff in Hx as [y [<- Hy]]; rewrite (H y Hy); ring.
Qed.

Lemma mul_zeroes (a b : Cyc.t) : zeroes b -> zeroes (Cyc.mul a b).
Proof.
  intros Hb; unfold Cyc.mul; generalize 0%nat; induction a as [|c a IH]; intros j; simpl.
  - apply zero_zeroes.
  - apply add_zeroes; [apply scal_zeroes, rot_zeroes, Hb | apply IH].
Qed.

Lemma zeroes_is_zero (a : Cyc.t) : zeroes a -> Cyc.is_zero a = true.
Proof.
  unfold zeroes, Cyc.is_zero; intros H; apply forallb_forall; intros x Hx.
  rewrite Forall_forall in H; rewrite (H x Hx); reflexivity.
Qed.

Lemma amp_remap (s : State) (k : nat) (f : nat -> Cyc.t) (b : nat) :
  amp (remap s k f) b = if (b <? 2 ^ nqubits s)%nat then f b else Cyc.zero.
Proof.
  unfold amp, remap; cbn [amps].
  destruct (Nat.ltb_spec b (2 ^ nqubits s)).
  - rewrite (nth_indep _ _ (f 0%nat)) by (rewrite length_map, length_seq; lia).
    rewrite map_nth, seq_nth by lia; reflexivity.
  - apply nth_overflow; rewrite length_map, length_seq; lia.
Qed.

Lemma amp_initialize (n b : nat) :
  amp (initialize n) b = if Nat.eqb b 0 then Cyc.const 1 else Cyc.zero.
Proof.
  unfold amp, initialize; cbn [amps].
  destruct (Nat.ltb_spec b (2 ^ n)).
  - rewrite (nth_indep _ _ (if Nat.eqb 0 0 then Cyc.const 1 else Cyc.zero))
      by (rewrite length_map, length_seq; lia).
    rewrite (map_nth (fun b => if Nat.eqb b 0 then Cyc.const 1 else Cyc.zero)), seq_nth by lia.
    reflexivity.
  - rewrite nth_overflow by (rewrite length_map, length_seq; lia).
    pose proof (Nat.pow_nonzero 2 n ltac:(discriminate)).
    destruct (Nat.eqb_spec b 0); [lia | reflexivity].
Qed.

Lemma flip_testbit_other (b q p : nat) : q <> p -> Nat.testbit (flip b q) p = Nat.testbit b p.
Proof.
  intros H; unfold flip; rewrite Nat.lxor_spec, Nat.pow2_bits_false by lia.
  apply Bool.xorb_false_r.
Qed.

(** a qubit [p] that is 0 in every basis state of nonzero amplitude *)
Definition clear_on (p : nat) (s : State) : Prop :=
  forall b, Nat.testbit b p = true -> zeroes (amp s b).

Lemma clear_on_initialize (p n : nat) : clear_on p (initialize n).
Proof.
  intros b Hb; rewrite amp_initialize; destruct (Nat.eqb_spec b 0); [|apply zero_zeroes].
  subst b; rewrite Nat.bits_0 in Hb; discriminate.
Qed.

Ltac zero_step :=
  repeat first
    [ match goal with |- context [if ?c then _ else _] => destruct c end
    | apply mul_zeroes | apply rot_zeroes | apply shift_zeroes
    | apply add_zeroes | apply sub_zeroes | apply opp_zeroes | apply zero_zeroes ].

Lemma apply_x_clear (p : nat) (o : XOp) (s : State) :
  (forall q, In q (match o with
                   | XG (GH q) | XG (GX q) | XG (GY q) | XG (GZ q) | XG (GRZ _ q) | XRY q => [q]
                   | XG (GCNOT c t) => [c; t]
                   | _ => [p]
                   end) -> q <> p) ->
  clear_on p s -> clear_on p (apply_x o s).
Proof.
  intros Hq Hs b Hb.
  destruct o as [g | q | k cs t].
  - destruct g as [q|q|q|q|c t|k c t|x y|k q]; cbn [apply_x apply];
      rewrite amp_remap; try (exfalso; apply (Hq p); simpl; auto; fail).
    + zero_step; try apply Hs; rewrite ?flip_testbit_other by (apply (Hq q); simpl; auto); exact Hb.
    + zero_step; apply Hs; rewrite flip_testbit_other by (apply (Hq q); simpl; auto); exact Hb.
    + zero_step; apply Hs; rewrite flip_testbit_other by (apply (Hq q); simpl; auto); exact Hb.
    + zero_step; apply Hs; exact Hb.
    + zero_step; apply Hs; rewrite ?flip_testbit_other by (apply (Hq t); simpl; auto); exact Hb.
    + zero_step; apply Hs; exact Hb.
  - cbn [apply_x]; rewrite amp_remap.
    zero_step; apply Hs; rewrite ?flip_testbit_other by (apply (Hq q); simpl; auto); exact Hb.
  - exfalso; apply (Hq p); simpl; auto.
Qed.

Lemma sample_cases (s : State) (r : nat) : sample s r = 0%nat \/ In (sample s r) (support s).
Proof.
  unfold sample; destruct (support s) as [|x l] eqn:E.
  - left; destruct (r mod List.length (@nil nat))%nat; reflexivity.
  - right; apply nth_In, Nat.mod_upper_bound; simpl; lia.
Qed.

Lemma sample_clear (p : nat) (s : State) (r : nat) :
  clear_on p s -> Nat.testbit (sample s r) p = false.
Proof.
  intros Hs; destruct (sample_cases s r) as [-> | Hin]; [apply Nat.bits_0|].
  unfold support in Hin; apply filter_In in Hin as [_ Hin].
  unfold in_support in Hin; apply andb_prop in Hin as [_ Hz].
  destruct (Nat.testbit (sample s r) p) eqn:E; [|reflexivity].
  rewrite (zeroes_is_zero _ (Hs _ E)) in Hz; discriminate.
Qed.

End ZeroFacts.

(** ** Count keys, Bell pairs and the three-qubit executors of part_000 *)
Module LabFacts.
Import Ext Part000 ZeroFacts.
Local Open Scope string_scope.

Lemma list_ascii_app (s t : string) :
  list_ascii_of_string (s ++ t) = List.app (list_ascii_of_string s) (list_ascii_of_string t).
Proof. induction s as [|c s IH]; simpl; [reflexivity | rewrite IH; reflexivity]. Qed.

Lemma int_base2_none (s : string) : Str.bin_value_aux s 0 = None -> Str.int_base2 s = Raise ValueError.
Proof. intros H; destruct s; [reflexivity|]; unfold Str.int_base2; rewrite H; reflexivity. Qed.

(** a Qiskit [measure_all] key is never a base-2 literal: the space *)
Lemma int_base2_measure_all_key (k b : nat) :
  Str.int_base2 (measure_all_key k b) = Raise ValueError.
Proof.
  apply int_base2_none; unfold measure_all_key.
  rewrite RandomGenFacts.bin_value_app, RandomGenFacts.bin_value_bits_be; reflexivity.
Qed.

Lemma qiskit_execute_raises (gates : list string) (r : nat) :
  qiskit_execute_quantum_circuit gates r = Raise ValueError.
Proof.
  unfold qiskit_execute_quantum_circuit, measure_all_key.
  rewrite list_ascii_app, rev_app_distr; reflexivity.
Qed.

Lemma exec_token_clear2 (tok : string) :
  Forall (fun o => forall s, clear_on 2 s -> clear_on 2 (apply_x o s)) (exec_token tok).
Proof.
  unfold exec_token; repeat (destruct (String.eqb _ _)); repeat constructor;
    intros s; apply apply_x_clear; simpl; intros q Hq; intuition (subst; discriminate).
Qed.

Lemma run_x_clear (p : nat) (ops : list XOp) :
  Forall (fun o => forall s, clear_on p s -> clear_on p (apply_x o s)) ops ->
  forall s, clear_on p s -> clear_on p (run_x ops s).
Proof. unfold run_x; induction 1 as [|o ops Ho _ IH]; intros s Hs; simpl; auto. Qed.

Lemma exec_final_clear2 (gates : list string) : clear_on 2 (exec_final gates).
Proof.
  unfold exec_final; apply run_x_clear; [|apply clear_on_initialize].
  apply Forall_forall; intros o Ho; apply in_flat_map in Ho as [tok [_ Ho]].
  exact (proj1 (Forall_forall _ _) (exec_token_clear2 tok) o Ho).
Qed.

Lemma cirq_execute_shape (gates : list string) (r : nat) :
  exists b0 b1, cirq_execute_quantum_circuit gates r = [Interface.b2z b0; Interface.b2z b1; 0].
Proof.
  unfold cirq_execute_quantum_circuit; cbn [seq map].
  rewrite (sample_clear 2 _ r (exec_final_clear2 gates)).
  eexists; eexists; reflexivity.
Qed.

Lemma b2z_cases (b : bool) : Interface.b2z b = 0 \/ Interface.b2z b = 1.
Proof. destruct b; [right | left]; reflexivity. Qed.

Lemma bell_support : support (run bell_ops (initialize 2)) = [0%nat; 3%nat].
Proof. vm_compute; reflexivity. Qed.

Lemma bell_cases (r : nat) :
  (cirq_create_bell_state r = (0, 0) /\ qiskit_create_bell_state r = Ret (0, 0)) \/
  (cirq_create_bell_state r = (1, 1) /\ qiskit_create_bell_state r = Ret (1, 1)).
Proof.
  unfold cirq_create_bell_state, qiskit_create_bell_state, sample; rewrite bell_support.
  cbn [List.length]; pose proof (Nat.mod_upper_bound r 2 ltac:(discriminate)).
  destruct (r mod 2)%nat as [|[|k]]; [left | right | lia]; split; reflexivity.
Qed.

(** every key [count_add] stores comes from the dict or from the list *)
Lemma dict_set_keys (k : string) (v : Z) (d : Histogram.Counts) (x : string) :
  In x (map fst (Histogram.dict_set k v d)) -> x = k \/ In x (map fst d).
Proof.
  induction d as [|[k' v'] d IH]; simpl; [intuition|].
  destruct (String.eqb_spec k k'); simpl; intros [H | H]; subst; auto.
  destruct (IH H); auto.
Qed.






End LabFacts.

(** ** Phase estimation and the Fourier transform on basis states *)
Module SpectralFacts.
Import Part000.

Lemma sample_single (s : State) (x r : nat) : support s = [x] -> sample s r = x.
Proof. intros H; unfold sample; rewrite H; cbn [List.length]; rewrite Nat.mod_1_r; reflexivity. Qed.

Lemma qpe_rng_free (n x : nat) (rng : nat -> nat) :
  support (run (qpe_circuit n) (initialize (S n))) = [x] ->
  quantum_phase_estimation n rng = quantum_phase_estimation n (fun _ => 0%nat).
Proof.
  intros H; unfold quantum_phase_estimation; cbv zeta.
  assert (E : forall f : nat -> nat,
    map (fun r => Histogram.row_string n (sample (run (qpe_circuit n) (initialize (S n))) (f r)))
        (seq 0 100) = map (fun _ => Histogram.row_string n x) (seq 0 100)).
  { intros f; apply map_ext; intros r; rewrite (sample_single _ _ _ H); reflexivity. }
  rewrite (E rng), (E (fun _ => 0%nat)); reflexivity.
Qed.

Lemma qpe_single_outcome (n : nat) : (1 <= n <= 6)%nat ->
  support (run (qpe_circuit n) (initialize (S n))) = [(3 * 2 ^ (n - 1))%nat].
Proof.
  intros Hn; destruct n as [|[|[|[|[|[|[|n]]]]]]]; try lia; vm_compute; reflexivity.
Qed.

Lemma uniform_check (n : nat) : (1 <= n <= 6)%nat ->
  (let s := Crypto.qft_final n in
   forallb (fun b => match born_prob s (Nat.eqb b) with
                     | Some p => Qeq_bool p (1 / inject_Z (2 ^ Z.of_nat n))
                     | None => false
                     end) (seq 0 (2 ^ n))) = true.
Proof.
  intros Hn; destruct n as [|[|[|[|[|[|[|n]]]]]]]; try lia; vm_compute; reflexivity.
Qed.

End SpectralFacts.

(** ** Bit values of bit strings *)
Module ValueFacts.
Import Part000.
Local Open Scope string_scope.

Lemma bin_value_bool_string (l : list bool) : forall acc,
  Str.bin_value_aux (Histogram.bool_string l) acc =
  Some (fold_left (fun a x => 2 * a + Interface.b2z x) l acc).
Proof.
  induction l as [|x l IH]; intros acc; [reflexivity|].
  change (Histogram.bool_string (x :: l)) with (String (Str.bit_char x) (Histogram.bool_string l)).
  destruct x; simpl; rewrite IH; [reflexivity | rewrite Z.add_0_r; reflexivity].
Qed.

Lemma fold_bits_shift (l : list bool) : forall acc,
  fold_left (fun a x => 2 * a + Interface.b2z x) l acc =
  acc * 2 ^ Z.of_nat (List.length l) + bits_value l.
Proof.
  unfold bits_value; induction l as [|x l IH]; intros acc; cbn [fold_left List.length]; [lia|].
  rewrite (IH (2 * acc + _)), (IH (2 * 0 + _)).
  rewrite Nat2Z.inj_succ, Z.pow_succ_r by lia; ring.
Qed.

Lemma bits_value_bound (l : list bool) : 0 <= bits_value l < 2 ^ Z.of_nat (List.length l).
Proof.
  induction l as [|x l IH]; [unfold bits_value; simpl; lia|].
  change (bits_value (x :: l))
    with (fold_left (fun a x => 2 * a + Interface.b2z x) l (2 * 0 + Interface.b2z x)).
  rewrite fold_bits_shift; cbn [List.length]; rewrite Nat2Z.inj_succ, Z.pow_succ_r by lia.
  destruct x; cbn [Interface.b2z]; lia.
Qed.

Lemma int_base2_bool_string (x : bool) (l : list bool) :
  Str.int_base2 (Histogram.bool_string (x :: l)) = Ret (bits_value (x :: l)).
Proof.
  pose proof (bin_value_bool_string (x :: l) 0) as H.
  unfold Str.int_base2.
  change (Histogram.bool_string (x :: l)) with (String (Str.bit_char x) (Histogram.bool_string l)) in *.
  rewrite H; reflexivity.
Qed.


Lemma is_bitstring_bool_string (l : list bool) : Str.is_bitstring (Histogram.bool_string l) = true.
Proof. unfold Str.is_bitstring; rewrite bin_value_bool_string; reflexivity. Qed.

Lemma from_bits_bool_string (l : list bool) :
  from_bits (Histogram.bool_string l) =
  Ret (RandomGen.mkRand (Histogram.bool_string l) (bits_value l) (Str.hex_upper (bits_value l))).
Proof.
  destruct l as [|x l]; [reflexivity|].
  unfold from_bits; rewrite int_base2_bool_string; reflexivity.
Qed.

Lemma length_bool_string (l : list bool) : String.length (Histogram.bool_string l) = List.length l.
Proof. induction l as [|x l IH]; simpl; [reflexivity | f_equal; exact IH]. Qed.

Lemma substring_bool_string (l : list bool) : forall k,
  substring 0 k (Histogram.bool_string l) = Histogram.bool_string (firstn k l).
Proof. induction l as [|x l IH]; intros [|k]; simpl; try reflexivity; f_equal; apply IH. Qed.

Lemma int_base2_row_string (n b : nat) : (1 <= n)%nat ->
  Str.int_base2 (Histogram.row_string n b) =
  Ret (bits_value (map (fun q => Nat.testbit b q) (seq 0 n))).
Proof.
  intros Hn; destruct n as [|n]; [lia|].
  unfold Histogram.row_string; cbn [seq map]; apply int_base2_bool_string.
Qed.

End ValueFacts.

(** ** Bytes, XOR and key records *)
Module CryptoFacts.
Import Crypto.
Local Open Scope string_scope.

Definition byte (x : Z) : Prop := 0 <= x < 256.

Lemma log2_byte (x : Z) : byte x -> Z.log2 x < 8.
Proof.
  unfold byte; intros Hx; destruct (Z.eq_dec x 0) as [-> | Hne]; [simpl; lia|].
  apply (proj1 (Z.log2_lt_pow2 x 8 ltac:(lia))); change (2 ^ 8) with 256; lia.
Qed.

Lemma lxor_byte (a b : Z) : byte a -> byte b -> byte (Z.lxor a b).
Proof.
  intros Ha Hb; pose proof (log2_byte a Ha) as La; pose proof (log2_byte b Hb) as Lb.
  unfold byte in *; assert (H0 : 0 <= Z.lxor a b) by (apply Z.lxor_nonneg; lia).
  split; [exact H0|].
  destruct (Z.eq_dec (Z.lxor a b) 0) as [-> | Hne]; [lia|].
  pose proof (Z.log2_lxor a b ltac:(lia) ltac:(lia)).
  change 256 with (2 ^ 8); apply (proj2 (Z.log2_lt_pow2 (Z.lxor a b) 8 ltac:(lia))); lia.
Qed.

Lemma nth_byte (l : list Z) (k : nat) : Forall byte l -> byte (nth k l 0).
Proof.
  intros H; destruct (Nat.lt_ge_cases k (List.length l)) as [Hk | Hk].
  - exact (proj1 (Forall_forall _ _) H _ (nth_In _ _ Hk)).
  - rewrite nth_overflow by exact Hk; unfold byte; lia.
Qed.

Lemma xor_loop_cons (kb : list Z) (i : nat) (b : Z) (rest acc : list Z) :
  kb <> [] -> byte (Z.lxor b (nth (i mod List.length kb) kb 0)) ->
  xor_loop kb i (b :: rest) acc =
  xor_loop kb (S i) rest (app acc [Z.lxor b (nth (i mod List.length kb) kb 0)]).
Proof.
  intros Hk Hx.
  transitivity (let x := Z.lxor b (nth (i mod List.length kb) kb 0) in
     if Z.leb 0 x && Z.ltb x 256 then xor_loop kb (S i) rest (app acc [x]) else Raise ValueError).
  - destruct kb; [congruence | reflexivity].
  - cbv zeta; unfold byte in Hx; set (x := Z.lxor b _) in *.
    replace (Z.leb 0 x && Z.ltb x 256) with true; [reflexivity|].
    symmetry; apply andb_true_intro; split; [apply Z.leb_le | apply Z.ltb_lt]; lia.
Qed.

Lemma xor_loop_ok (kb : list Z) : kb <> [] -> Forall byte kb ->
  forall msg i acc acc', Forall byte msg ->
  exists enc, xor_loop kb i msg acc = Ret (app acc enc) /\
    List.length enc = List.length msg /\ Forall byte enc /\
    xor_loop kb i enc acc' = Ret (app acc' msg).
Proof.
  intros Hk Hkb msg; induction msg as [|m msg IH]; intros i acc acc' Hm.
  - exists []; rewrite !app_nil_r; repeat split; try reflexivity; constructor.
  - apply Forall_cons_iff in Hm as [Hm0 Hms].
    assert (Hkk : byte (nth (i mod List.length kb) kb 0)) by (apply nth_byte; exact Hkb).
    assert (Hx : byte (Z.lxor m (nth (i mod List.length kb) kb 0))) by (apply lxor_byte; assumption).
    assert (E : Z.lxor (Z.lxor m (nth (i mod List.length kb) kb 0)) (nth (i mod List.length kb) kb 0) = m)
      by (rewrite Z.lxor_assoc, Z.lxor_nilpotent, Z.lxor_0_r; reflexivity).
    destruct (IH (S i) (app acc [Z.lxor m (nth (i mod List.length kb) kb 0)]) (app acc' [m]) Hms)
      as [enc [H1 [H2 [H3 H4]]]].
    exists (Z.lxor m (nth (i mod List.length kb) kb 0) :: enc); split; [|split; [|split]].
    + rewrite xor_loop_cons by assumption; rewrite <- app_assoc in H1; exact H1.
    + simpl; f_equal; exact H2.
    + constructor; assumption.
    + rewrite xor_loop_cons by (try rewrite E; assumption); rewrite E.
      rewrite <- app_assoc in H4; exact H4.
Qed.

Lemma to_bytes_ok (v : Z) : 0 <= v < 256 ^ 32 ->
  exists kb, to_bytes 32 v = Ret kb /\ List.length kb = 32%nat /\ Forall byte kb.
Proof.
  intros Hv; unfold to_bytes.
  replace (Z.leb 0 v && Z.ltb v (256 ^ Z.of_nat 32)) with true.
  - eexists; split; [reflexivity|]; split; [rewrite length_map, length_seq; reflexivity|].
    apply Forall_forall; intros x Hx; apply in_map_iff in Hx as [i [<- _]].
    unfold byte; apply Z.mod_pos_bound; lia.
  - symmetry; apply andb_true_intro; split; [apply Z.leb_le | apply Z.ltb_lt]; simpl Z.of_nat; lia.
Qed.

Lemma length_bytes_hex (l : list Z) : String.length (bytes_hex l) = (2 * List.length l)%nat.
Proof. unfold bytes_hex; induction l as [|x l IH]; simpl; [reflexivity | rewrite IH; lia]. Qed.

Lemma take_key_firstn (key_length : Z) (bits : list bool) :
  BB84.take_key key_length bits = firstn (Z.to_nat key_length) bits.
Proof.
  unfold BB84.take_key; destruct (Z.leb_spec key_length (Z.of_nat (List.length bits))); [reflexivity|].
  symmetry; apply firstn_all2; lia.
Qed.

Lemma security_high (u : Q) : (0 <= u <= 1)%Q ->
  negb (Qle_bool (11 # 100) (0 + ((5 # 100) - 0) * u)) = true.
Proof.
  intros Hu; destruct (Qle_bool (11 # 100) _) eqn:E; [|reflexivity].
  apply Qle_bool_iff in E; lra.
Qed.

Lemma efficiency_half (a b : nat) : (0 < b)%nat -> (2 * a <= b)%nat ->
  (inject_Z (Z.of_nat a) / inject_Z (Z.of_nat b) <= 1 # 2)%Q.
Proof.
  intros Hb Hab; apply Qle_shift_div_r.
  - unfold Qlt; simpl; lia.
  - unfold Qle, Qmult, inject_Z; cbn [Qnum Qden]; lia.
Qed.

End CryptoFacts.

(** ** The circuit store *)
Module StoreFacts.
Import Circuits Store.

Lemma find_app {A} (f : A -> bool) (l1 l2 : list A) :
  find f (app l1 l2) = match find f l1 with Some x => Some x | None => find f l2 end.
Proof.
  induction l1 as [|x l1 IH]; simpl; [reflexivity|]; destruct (f x); [reflexivity | exact IH].
Qed.

Lemma find_none_intro {A} (f : A -> bool) (l : list A) :
  (forall x, In x l -> f x = false) -> find f l = None.
Proof.
  induction l as [|x l IH]; intros H; simpl; [reflexivity|].
  rewrite H by (left; reflexivity); apply IH; intros y Hy; apply H; right; exact Hy.
Qed.

Lemma id_in_range (circuits : list CircuitEntry) (e : CircuitEntry) :
  map c_id circuits = map Z.of_nat (seq 1 (List.length circuits)) -> In e circuits ->
  1 <= c_id e <= Z.of_nat (List.length circuits).
Proof.
  intros H He; assert (Hi : In (c_id e) (map c_id circuits)) by (apply in_map; exact He).
  rewrite H in Hi; apply in_map_iff in Hi as [k [Hk Hin]]; apply in_seq in Hin; lia.
Qed.

Lemma get_none (circuits : list CircuitEntry) (j : Z) :
  (forall e, In e circuits -> c_id e <> j) -> get_circuit_info circuits j = Raise ValueError.
Proof.
  intros H; unfold get_circuit_info; rewrite find_none_intro; [reflexivity|].
  intros x Hx; apply Z.eqb_neq, H, Hx.
Qed.

Lemma NoDup_map_of_nat (l : list nat) : NoDup l -> NoDup (map Z.of_nat l).
Proof.
  induction 1 as [|x l Hx _ IH]; simpl; constructor; [|exact IH].
  intros Hin; apply in_map_iff in Hin as [y [Hy Hy']]; apply Nat2Z.inj in Hy; subst; contradiction.
Qed.

Lemma list_circuits_suffix (circuits : list CircuitEntry) :
  NoDup (map c_id circuits) -> forall post pre, circuits = app pre post ->
  fold_right (fun cid acc =>
      match get_circuit_info circuits cid, acc with
      | Ret e, Ret es => Ret (e :: es)
      | Raise x, _ => Raise x
      | _, Raise x => Raise x
      end) (Ret []) (map c_id post) = Ret post.
Proof.
  intros Hnd post; induction post as [|e post IH]; intros pre Hc; [reflexivity|].
  cbn [map fold_right].
  rewrite (IH (app pre [e])) by (rewrite <- app_assoc; exact Hc).
  assert (Hg : get_circuit_info circuits (c_id e) = Ret e).
  { unfold get_circuit_info; rewrite Hc, find_app, find_none_intro; [simpl; rewrite Z.eqb_refl; reflexivity|].
    intros x Hx; apply Z.eqb_neq; intros Hxe.
    rewrite Hc, map_app in Hnd; cbn [map] in Hnd; apply NoDup_remove_2 in Hnd.
    apply Hnd, in_or_app; left; rewrite <- Hxe; apply in_map; exact Hx. }
  rewrite Hg; reflexivity.
Qed.

End StoreFacts.

(** ** The classical simulation of the Q# lab *)
Module QsharpFacts.
Import Histogram.
Local Open Scope string_scope.




Lemma list_set_length (l : list bool) (k : nat) (v : bool) :
  (k < List.length l)%nat -> List.length (list_set l k v) = List.length l.
Proof.
  intros Hk; unfold list_set; rewrite length_app, length_firstn; cbn [List.length].
  rewrite length_skipn; lia.
Qed.

Lemma qsharp_gate_length (n : nat) (coin : bool) (i : nat) (g : string) (st : list bool) :
  (1 <= n)%nat -> List.length st = n -> List.length (qsharp_gate n coin i g st) = n.
Proof.
  intros Hn Hst; unfold qsharp_gate; cbv zeta.
  assert (H1 : (i mod n < List.length st)%nat) by (rewrite Hst; apply Nat.mod_upper_bound; lia).
  assert (H2 : ((i mod n + 1) mod n < List.length st)%nat) by (rewrite Hst; apply Nat.mod_upper_bound; lia).
  repeat match goal with |- context [if ?c then _ else _] => destruct c end;
    rewrite ?list_set_length; assumption.
Qed.

Lemma qsharp_gates_length (n : nat) (coins : nat -> bool) (gates : list string) :
  ((1 <= n)%nat \/ gates = []) ->
  forall i st, List.length st = n -> List.length (qsharp_gates n coins i gates st) = n.
Proof.
  intros Hn; induction gates as [|g gates IH]; intros i st Hst; simpl; [exact Hst|].
  destruct Hn as [Hn | Hn]; [|discriminate].
  apply IH; [left; exact Hn | apply qsharp_gate_length; assumption].
Qed.

Lemma dict_set_nodup (k : string) (v : Z) (d : Counts) :
  NoDup (map fst d) -> NoDup (map fst (dict_set k v d)).
Proof.
  induction d as [|[k' v'] d IH]; intros Hd; simpl; [constructor; [intros [] | constructor]|].
  inversion Hd as [|? ? Hk' Hd']; subst.
  destruct (String.eqb_spec k k'); simpl; [subst; exact Hd|].
  constructor; [|apply IH, Hd'].
  intros Hin; destruct (LabFacts.dict_set_keys _ _ _ _ Hin); [congruence | contradiction].
Qed.

Lemma qsharp_shots_keys (n : nat) (gates : list string) (coins : nat -> nat -> bool)
    (P : string -> Prop) :
  (forall s, P (bool_string (qsharp_gates n (coins s) 0 gates (repeat false n)))) ->
  forall k s counts, NoDup (map fst counts) -> Forall P (map fst counts) ->
  NoDup (map fst (qsharp_shots n gates coins k s counts)) /\
  Forall P (map fst (qsharp_shots n gates coins k s counts)).
Proof.
  intros HP; induction k as [|k IH]; intros s counts Hnd Hf; [split; assumption|].
  cbn [qsharp_shots]; apply IH; unfold count_add; [apply dict_set_nodup, Hnd|].
  apply Forall_forall; intros x Hx; destruct (LabFacts.dict_set_keys _ _ _ _ Hx) as [-> | Hx'].
  - apply HP.
  - exact (proj1 (Forall_forall _ _) Hf x Hx').
Qed.

End QsharpFacts.

(** * Properties of the other lab functions *)

(** ** Bell pairs *)

(** X1: the Bell circuit of part_000 always measures two equal bits: the
    Cirq lab returns [(x, x)] and the Qiskit lab [Ret (x, x)] with x in
    {0, 1}, and both outcomes occur. *)
Theorem bell_state_equal_bits :
  (forall r, exists x, (x = 0 \/ x = 1) /\
     Part000.cirq_create_bell_state r = (x, x) /\ Part000.qiskit_create_bell_state r = Ret (x, x)) /\
  Part000.cirq_create_bell_state 0 = (0, 0) /\ Part000.cirq_create_bell_state 1 = (1, 1).
Proof.
  split; [|split; reflexivity].
  intros r; destruct (LabFacts.bell_cases r) as [[H1 H2] | [H1 H2]];
    [exists 0 | exists 1]; auto.
Qed.

(** X2: when Qiskit or Cirq is available, [QuantumInterface.create_bell_state]
    over the part_000 labs returns two equal bits; the random fallback is not
    reached. *)
Theorem interface_bell_state_equal_bits (qa ca : bool) (r : nat) (rnd : bool * bool) :
  (qa = true \/ ca = true) ->
  exists x, (x = 0 \/ x = 1) /\
    Interface.create_bell_state qa ca (Part000.qiskit_create_bell_state r)
      (Ret (Part000.cirq_create_bell_state r)) rnd = Ret (x, x).
Proof.
  intros Hqc; destruct (LabFacts.bell_cases r) as [[H1 H2] | [H1 H2]];
    [exists 0 | exists 1]; (split; [auto|]);
    unfold Interface.create_bell_state, Interface.with_fallback, Interface.attempt;
    rewrite H1, H2; destruct qa, ca; simpl; try reflexivity; destruct Hqc; discriminate.
Qed.

Lemma interface_bell_state_equal_bits_witness :
  exists x, (x = 0 \/ x = 1) /\
    Interface.create_bell_state false true (Part000.qiskit_create_bell_state 5)
      (Ret (Part000.cirq_create_bell_state 5)) (true, false) = Ret (x, x).
Proof. apply (interface_bell_state_equal_bits false true 5 (true, false)); right; reflexivity. Defined.

(** ** The three-qubit executors of part_000 *)

(** X3: [QiskitQuantumLab.execute_quantum_circuit] always raises ValueError:
    the reversed [measure_all] key begins with the digits of the unwritten
    register, and [int] of the space between the registers fails. *)
Theorem qiskit_execute_quantum_circuit_raises (gates : list string) (r : nat) :
  Part000.qiskit_execute_quantum_circuit gates r = Raise ValueError.
Proof.
  unfold Part000.qiskit_execute_quantum_circuit, Part000.measure_all_key.
  rewrite LabFacts.list_ascii_app, rev_app_distr; reflexivity.
Qed.

(** X4: [CirqQuantumLab.execute_quantum_circuit] returns three values in
    {0, 1} and the last one, qubit 2, is 0 for every gate list: no gate
    token acts on qubit 2. *)
Theorem cirq_execute_quantum_circuit_shape (gates : list string) (r : nat) :
  exists x0 x1, (x0 = 0 \/ x0 = 1) /\ (x1 = 0 \/ x1 = 1) /\
    Part000.cirq_execute_quantum_circuit gates r = [x0; x1; 0].
Proof.
  destruct (LabFacts.cirq_execute_shape gates r) as [b0 [b1 H]].
  exists (Interface.b2z b0), (Interface.b2z b1).
  split; [apply LabFacts.b2z_cases|]; split; [apply LabFacts.b2z_cases|]; exact H.
Qed.

(** X5: [QuantumInterface.execute_circuit] over the part_000 labs returns
    the three random fallback bits when Qiskit is available (its call always
    fails), the Cirq result when only Cirq is, and the fallback otherwise. *)
Theorem interface_execute_circuit (qa ca : bool) (gates : list string) (r : nat) (rnd : nat -> bool) :
  InterfaceMore.execute_circuit qa ca (Part000.qiskit_execute_quantum_circuit gates r)
    (Ret (Part000.cirq_execute_quantum_circuit gates r)) rnd =
  if qa then Ret [Interface.b2z (rnd 0%nat); Interface.b2z (rnd 1%nat); Interface.b2z (rnd 2%nat)]
  else if ca then Ret (Part000.cirq_execute_quantum_circuit gates r)
  else Ret [Interface.b2z (rnd 0%nat); Interface.b2z (rnd 1%nat); Interface.b2z (rnd 2%nat)].
Proof.
  unfold InterfaceMore.execute_circuit, Interface.with_fallback, Interface.attempt.
  rewrite LabFacts.qiskit_execute_raises; destruct qa, ca; reflexivity.
Qed.

(** ** Grover search *)




(** ** Phase estimation and the Fourier transform *)

(** X8: [CirqQuantumLab.quantum_phase_estimation] on 1 to 6 counting qubits
    measures one row in all 100 repetitions, [0...01] (qubit 0 first), and
    reports the phase 1/2^n with confidence 1, whatever the random
    choices. *)
Theorem qpe_reports_single_row (n : nat) (rng : nat -> nat) :
  (1 <= n <= 6)%nat ->
  exists res, Part000.quantum_phase_estimation n rng = Ret res /\
    Part000.measured_binary res = (Str.zeros (n - 1) ++ "1")%string /\
    (Part000.estimated_phase res == 1 / inject_Z (2 ^ Z.of_nat n))%Q /\
    (Part000.confidence res == 1)%Q /\
    Part000.all_measurements res = [(Part000.measured_binary res, 100)].
Proof.
  intros Hn.
  rewrite (SpectralFacts.qpe_rng_free n _ rng (SpectralFacts.qpe_single_outcome n Hn)).
  destruct n as [|[|[|[|[|[|[|n]]]]]]]; try lia;
    vm_compute; eexists; (split; [reflexivity|]); vm_compute; repeat split; reflexivity.
Qed.

Lemma qpe_reports_single_row_witness :
  exists res, Part000.quantum_phase_estimation 3 (fun r => (7 * r)%nat) = Ret res /\
    Part000.measured_binary res = (Str.zeros 2 ++ "1")%string.
Proof.
  destruct (qpe_reports_single_row 3 (fun r => (7 * r)%nat) ltac:(lia)) as [res [H1 [H2 _]]].
  exists res; split; assumption.
Defined.

(** X9: the state [CirqQuantumLab.quantum_fourier_transform] measures, on 1
    to 6 qubits, gives every basis state the probability 1/2^n. *)
Theorem qft_uniform_distribution (n b : nat) :
  (1 <= n <= 6)%nat -> (b < 2 ^ n)%nat ->
  exists p, born_prob (Crypto.qft_final n) (Nat.eqb b) = Some p /\
    (p == 1 / inject_Z (2 ^ Z.of_nat n))%Q.
Proof.
  intros Hn Hb; pose proof (SpectralFacts.uniform_check n Hn) as H; cbv zeta in H.
  apply (proj1 (forallb_forall _ _)) with (x := b) in H; [|apply in_seq; lia].
  destruct (born_prob (Crypto.qft_final n) (Nat.eqb b)) as [p|]; [|discriminate].
  exists p; split; [reflexivity | apply Qeq_bool_iff; exact H].
Qed.

Lemma qft_uniform_distribution_witness :
  exists p, born_prob (Crypto.qft_final 3) (Nat.eqb 5) = Some p /\ (p == 1 / inject_Z (2 ^ 3))%Q.
Proof. apply (qft_uniform_distribution 3 5); simpl; lia. Defined.

(** ** Random number generators *)


(** X11: [QSharpQuantumLab.quantum_random_number_generator] never raises:
    it returns the string of the drawn bits, its value in [0, 2^n) and its
    upper-case hex, with 0 for no bits. *)
Theorem qsharp_random_generator_value (num_bits : nat) (rnd : nat -> bool) :
  let bits := map rnd (seq 0 num_bits) in
  let v := Part000.bits_value bits in
  Crypto.qsharp_qrng num_bits rnd = Ret (RandomGen.mkRand (Histogram.bool_string bits) v (Str.hex_upper v)) /\
  String.length (Histogram.bool_string bits) = num_bits /\
  0 <= v < 2 ^ Z.of_nat num_bits.
Proof.
  cbv zeta; split; [apply ValueFacts.from_bits_bool_string|split].
  - rewrite ValueFacts.length_bool_string, length_map, length_seq; reflexivity.
  - pose proof (ValueFacts.bits_value_bound (map rnd (seq 0 num_bits))) as H.
    rewrite length_map, length_seq in H; exact H.
Qed.




(** ** Post-quantum encryption *)

(** X14: [post_quantum_encrypt] of qiskit quantum.py always raises
    ValueError: [int(quantum_key, 2)] of a [measure_all] key fails. *)
Theorem qiskit_post_quantum_encrypt_raises (message_bytes : list Z) (r : nat) :
  Crypto.qiskit_post_quantum_encrypt message_bytes r = Raise ValueError.
Proof.
  unfold Crypto.qiskit_post_quantum_encrypt, Crypto.encrypt_with.
  rewrite LabFacts.int_base2_measure_all_key; reflexivity.
Qed.

(** X15: [post_quantum_encrypt] of cirqa quantum.py succeeds on every
    message of bytes: the 32 key bytes are those of the 256-bit row, XOR
    with them again gives the message back, the hex string has two digits
    per byte and the key id is the row of the first 32 qubits. *)
Theorem cirq_post_quantum_encrypt_roundtrip (message_bytes : list Z) (r : nat) :
  Forall (fun x => 0 <= x < 256) message_bytes ->
  let bits := map (fun q => Nat.testbit (RandomGen.h_layer_outcome 256 r) q) (seq 0 256) in
  exists key_bytes res,
    Crypto.to_bytes 32 (Part000.bits_value bits) = Ret key_bytes /\
    Crypto.cirq_post_quantum_encrypt message_bytes r = Ret res /\
    Crypto.xor_loop key_bytes 0 message_bytes [] = Ret (Crypto.encrypted res) /\
    Crypto.xor_loop key_bytes 0 (Crypto.encrypted res) [] = Ret message_bytes /\
    List.length (Crypto.encrypted res) = List.length message_bytes /\
    Crypto.encrypted_data res = Crypto.bytes_hex (Crypto.encrypted res) /\
    String.length (Crypto.encrypted_data res) = (2 * List.length message_bytes)%nat /\
    Crypto.key_id res = Histogram.row_string 32 (RandomGen.h_layer_outcome 256 r).
Proof.
  intros Hm; cbv zeta.
  set (b := RandomGen.h_layer_outcome 256 r).
  set (bits := map (fun q => Nat.testbit b q) (seq 0 256)).
  pose proof (ValueFacts.bits_value_bound bits) as Hv.
  replace (Z.of_nat (List.length bits)) with 256 in Hv
    by (unfold bits; rewrite length_map, length_seq; reflexivity).
  destruct (CryptoFacts.to_bytes_ok (Part000.bits_value bits)) as [kb [Hkb [Hlen Hbytes]]].
  { assert (E : 2 ^ 256 = 256 ^ 32) by (vm_compute; reflexivity); rewrite <- E; exact Hv. }
  assert (Hk : kb <> []) by (intros E; rewrite E in Hlen; discriminate Hlen).
  destruct (CryptoFacts.xor_loop_ok kb Hk Hbytes message_bytes 0 [] [] Hm) as [enc [H1 [H2 [_ H4]]]].
  cbn [app] in H1, H4.
  exists kb, (Crypto.mkPQ enc (Crypto.bytes_hex enc) (substring 0 32 (Histogram.row_string 256 b))).
  split; [exact Hkb|]; split.
  - unfold Crypto.cirq_post_quantum_encrypt, Crypto.encrypt_with; fold b.
    rewrite ValueFacts.int_base2_row_string by lia; fold bits; rewrite Hkb, H1; reflexivity.
  - cbn [Crypto.encrypted Crypto.encrypted_data Crypto.key_id].
    split; [exact H1|]; split; [exact H4|]; split; [exact H2|]; split; [reflexivity|]; split.
    + rewrite CryptoFacts.length_bytes_hex, H2; reflexivity.
    + unfold Histogram.row_string; rewrite ValueFacts.substring_bool_string, firstn_map; reflexivity.
Qed.

Lemma cirq_post_quantum_encrypt_roundtrip_witness :
  exists key_bytes res,
    Crypto.cirq_post_quantum_encrypt [104; 105] 3 = Ret res /\
    Crypto.xor_loop key_bytes 0 (Crypto.encrypted res) [] = Ret [104; 105].
Proof.
  destruct (cirq_post_quantum_encrypt_roundtrip [104; 105] 3
              ltac:(repeat constructor; lia)) as [kb [res [_ [H1 [_ [H2 _]]]]]].
  exists kb, res; split; assumption.
Defined.

(** ** BB84 key records *)

(** X16: [bb84_key_distribution] of cirqa quantum.py and of the Q# lab
    raises ZeroDivisionError for a key length <= 0; for a key length >= 1
    it stores and returns a record under id [len(crypto_keys) + 1] whose key
    is the first [key_length] bits where the bases agree, with hex "0" for
    an empty key, security level "HIGH" and efficiency at most 1/2. *)
Theorem bb84_key_record (crypto_keys : list Crypto.KeyRecord)
    (alice_bits alice_bases bob_bases : nat -> bool) (u : Q) (key_length : Z) :
  (key_length <= 0 ->
   Crypto.bb84_key_distribution crypto_keys alice_bits alice_bases bob_bases u key_length =
   Raise ZeroDivisionError) /\
  (1 <= key_length -> (0 <= u <= 1)%Q ->
   let matching := filter (fun i => Bool.eqb (alice_bases i) (bob_bases i))
                     (seq 0 (Z.to_nat (key_length * 2))) in
   let final_key := firstn (Z.to_nat key_length) (map alice_bits matching) in
   exists rec,
     Crypto.bb84_key_distribution crypto_keys alice_bits alice_bases bob_bases u key_length =
       Ret (rec, app crypto_keys [rec]) /\
     Crypto.kr_id rec = Z.of_nat (List.length crypto_keys) + 1 /\
     Crypto.kr_key_length rec = Nat.min (Z.to_nat key_length) (List.length matching) /\
     Crypto.kr_key_binary rec = Histogram.bool_string final_key /\
     Crypto.kr_key_hex rec =
       (match final_key with [] => "0" | _ => Crypto.hex_lower (Part000.bits_value final_key) end)%string /\
     Crypto.kr_security_level rec = "HIGH"%string /\
     (Crypto.kr_efficiency rec <= 1 # 2)%Q).
Proof.
  split.
  - intros Hk; unfold Crypto.bb84_key_distribution; rewrite CryptoFacts.take_key_firstn.
    replace (Z.to_nat (key_length * 2)) with 0%nat by lia; simpl; rewrite firstn_nil; reflexivity.
  - intros Hk Hu; cbv zeta; unfold Crypto.bb84_key_distribution; rewrite CryptoFacts.take_key_firstn.
    assert (HN : List.length (seq 0 (Z.to_nat (key_length * 2))) = Z.to_nat (key_length * 2))
      by apply length_seq.
    destruct (seq 0 (Z.to_nat (key_length * 2))) as [|i0 idx'] eqn:Ei; [simpl in HN; lia|].
    remember (firstn (Z.to_nat key_length)
      (map alice_bits (filter (fun i => Bool.eqb (alice_bases i) (bob_bases i)) (i0 :: idx'))))
      as fk eqn:Ef.
    assert (Hfk : List.length fk =
      Nat.min (Z.to_nat key_length)
        (List.length (filter (fun i => Bool.eqb (alice_bases i) (bob_bases i)) (i0 :: idx'))))
      by (rewrite Ef, length_firstn, length_map; reflexivity).
    assert (Heff : (inject_Z (Z.of_nat (List.length fk)) /
                    inject_Z (Z.of_nat (List.length (i0 :: idx'))) <= 1 # 2)%Q)
      by (apply CryptoFacts.efficiency_half; rewrite HN; lia).
    destruct fk as [|x l].
    + eexists; split; [reflexivity|]; cbn [Crypto.kr_id Crypto.kr_key_length Crypto.kr_key_binary
        Crypto.kr_key_hex Crypto.kr_security_level Crypto.kr_efficiency].
      rewrite (CryptoFacts.security_high u Hu); repeat split; try reflexivity; assumption.
    + rewrite ValueFacts.int_base2_bool_string.
      eexists; split; [reflexivity|]; cbn [Crypto.kr_id Crypto.kr_key_length Crypto.kr_key_binary
        Crypto.kr_key_hex Crypto.kr_security_level Crypto.kr_efficiency].
      rewrite (CryptoFacts.security_high u Hu); repeat split; try reflexivity; assumption.
Qed.

Lemma bb84_key_record_witness :
  Crypto.bb84_key_distribution [] Nat.odd Nat.even Nat.even (1 # 2) 0 = Raise ZeroDivisionError /\
  exists rec, Crypto.bb84_key_distribution [] Nat.odd Nat.even Nat.even (1 # 2) 3 = Ret (rec, [rec]) /\
    Crypto.kr_security_level rec = "HIGH"%string.
Proof.
  split.
  - exact (proj1 (bb84_key_record [] Nat.odd Nat.even Nat.even (1 # 2) 0) ltac:(lia)).
  - destruct (proj2 (bb84_key_record [] Nat.odd Nat.even Nat.even (1 # 2) 3) ltac:(lia)
                ltac:(split; unfold Qle; simpl; lia))
      as [rec [H1 [_ [_ [_ [_ [H2 _]]]]]]].
    exists rec; split; assumption.
Defined.

(** ** The circuit store *)

(** X17: on a store whose ids are 1 .. len in order, a successful
    [create_quantum_circuit] keeps that invariant, [get_circuit_info] finds
    the new circuit under the returned id, and every other id looks up what
    it did before. *)
Theorem circuit_store_create_lookup (circuits : list Circuits.CircuitEntry) (name : string)
    (num_qubits : nat) (gates : list string) (circuit_id : Z) (circuits' : list Circuits.CircuitEntry) :
  map Circuits.c_id circuits = map Z.of_nat (seq 1 (List.length circuits)) ->
  Circuits.create_quantum_circuit circuits name num_qubits gates = Ret (circuit_id, circuits') ->
  map Circuits.c_id circuits' = map Z.of_nat (seq 1 (List.length circuits')) /\
  Store.get_circuit_info circuits' circuit_id =
    Ret (Circuits.mkEntry circuit_id name num_qubits gates (Circuits.build_ops num_qubits 0 gates)) /\
  (forall j, j <> circuit_id -> Store.get_circuit_info circuits' j = Store.get_circuit_info circuits j).
Proof.
  intros Hwf Hc.
  assert (Hc' : circuit_id = Z.of_nat (List.length circuits) + 1 /\
                circuits' = app circuits [Circuits.mkEntry circuit_id name num_qubits gates
                                            (Circuits.build_ops num_qubits 0 gates)]).
  { unfold Circuits.create_quantum_circuit in Hc.
    destruct num_qubits as [|n'], gates as [|g gs]; try discriminate Hc;
      injection Hc as <- <-; split; reflexivity. }
  destruct Hc' as [-> ->]; split; [|split].
  - rewrite map_app, Hwf, length_app; cbn [map List.length].
    rewrite Nat.add_1_r, seq_S, map_app; cbn [map Circuits.c_id]; f_equal; f_equal; lia.
  - unfold Store.get_circuit_info; rewrite StoreFacts.find_app, StoreFacts.find_none_intro.
    + simpl; rewrite Z.eqb_refl; reflexivity.
    + intros x Hx; apply Z.eqb_neq; pose proof (StoreFacts.id_in_range _ _ Hwf Hx); lia.
  - intros j Hj; unfold Store.get_circuit_info; rewrite StoreFacts.find_app.
    destruct (find _ circuits); [reflexivity|]; simpl.
    destruct (Z.eqb_spec (Z.of_nat (List.length circuits) + 1) j); [congruence | reflexivity].
Qed.

Lemma circuit_store_create_lookup_witness :
  Store.get_circuit_info [Circuits.mkEntry 1 "a"%string 2 [] []; Circuits.mkEntry 2 "b"%string 1 ["X"%string] [GX 0]] 2 =
  Ret (Circuits.mkEntry 2 "b"%string 1 ["X"%string] (Circuits.build_ops 1 0 ["X"%string])).
Proof.
  exact (proj1 (proj2 (circuit_store_create_lookup [Circuits.mkEntry 1 "a"%string 2 [] []]
    "b"%string 1 ["X"%string] 2
    [Circuits.mkEntry 1 "a"%string 2 [] []; Circuits.mkEntry 2 "b"%string 1 ["X"%string] [GX 0]]
    ltac:(reflexivity) ltac:(reflexivity)))).
Defined.

(** X18: on a store whose ids are 1 .. len in order, [get_circuit_info]
    raises ValueError exactly for the ids outside 1 .. len, [execute_circuit]
    raises ValueError for them too, and [list_circuits] returns the stored
    circuits in order. *)
Theorem circuit_store_missing_and_list (circuits : list Circuits.CircuitEntry) (circuit_id : Z)
    (repetitions : nat) (rng : nat -> nat) :
  map Circuits.c_id circuits = map Z.of_nat (seq 1 (List.length circuits)) ->
  (Store.get_circuit_info circuits circuit_id = Raise ValueError <->
   ~ (1 <= circuit_id <= Z.of_nat (List.length circuits))) /\
  (~ (1 <= circuit_id <= Z.of_nat (List.length circuits)) ->
   Store.execute_circuit circuits circuit_id repetitions rng = Raise ValueError) /\
  Store.list_circuits circuits = Ret circuits.
Proof.
  intros Hwf.
  assert (Hnone : ~ (1 <= circuit_id <= Z.of_nat (List.length circuits)) ->
                  Store.get_circuit_info circuits circuit_id = Raise ValueError).
  { intros Hr; apply StoreFacts.get_none; intros e He Hid.
    pose proof (StoreFacts.id_in_range _ _ Hwf He); lia. }
  split; [split; [|exact Hnone]|split].
  - unfold Store.get_circuit_info; destruct (find _ circuits) as [e|] eqn:E; [discriminate|].
    intros _ Hr.
    assert (Hin : In circuit_id (map Circuits.c_id circuits)).
    { rewrite Hwf; apply in_map_iff; exists (Z.to_nat circuit_id); split; [lia | apply in_seq; lia]. }
    apply in_map_iff in Hin as [e [He Hin]].
    pose proof (find_none _ _ E e Hin) as Hf; cbn beta in Hf; rewrite He, Z.eqb_refl in Hf; discriminate.
  - intros Hr; unfold Store.execute_circuit; rewrite (Hnone Hr); reflexivity.
  - unfold Store.list_circuits; apply (StoreFacts.list_circuits_suffix circuits) with (pre := []);
      [|reflexivity].
    rewrite Hwf; apply StoreFacts.NoDup_map_of_nat, seq_NoDup.
Qed.

Lemma circuit_store_missing_and_list_witness :
  Store.execute_circuit [Circuits.mkEntry 1 "a"%string 2 [] []] 7 10 (fun _ => 0%nat) = Raise ValueError.
Proof.
  exact (proj1 (proj2 (circuit_store_missing_and_list [Circuits.mkEntry 1 "a"%string 2 [] []] 7 10
    (fun _ => 0%nat) ltac:(reflexivity))) ltac:(simpl; lia)).
Defined.

(** ** The classical simulation of the Q# lab *)



(** X20: every count dict [QSharpQuantumLab.execute_circuit] returns has
    each key once, and every key is a bit string of [num_qubits] digits. *)
Theorem qsharp_execute_keys (num_qubits : nat) (gates : list string) (shots : Z)
    (coins : nat -> nat -> bool) (s : Z) (counts : Histogram.Counts) :
  Histogram.qsharp_execute num_qubits gates shots coins = Ret (s, counts) ->
  s = shots /\ NoDup (map fst counts) /\
  Forall (fun k => String.length k = num_qubits /\ Str.is_bitstring k = true) (map fst counts).
Proof.
  intros H; unfold Histogram.qsharp_execute in H.
  assert (Hgen : ((1 <= num_qubits)%nat \/ gates = []) ->
    NoDup (map fst (Histogram.qsharp_shots num_qubits gates coins (Z.to_nat shots) 0 [])) /\
    Forall (fun k => String.length k = num_qubits /\ Str.is_bitstring k = true)
      (map fst (Histogram.qsharp_shots num_qubits gates coins (Z.to_nat shots) 0 []))).
  { intros Hn; apply QsharpFacts.qsharp_shots_keys; [|constructor|constructor].
    intros s'; split; [|apply ValueFacts.is_bitstring_bool_string].
    rewrite ValueFacts.length_bool_string; apply QsharpFacts.qsharp_gates_length;
      [exact Hn | apply repeat_length]. }
  destruct num_qubits as [|n], gates as [|g gs].
  - injection H as <- <-; split; [reflexivity | apply Hgen; right; reflexivity].
  - destruct (Z.ltb 0 shots); [discriminate|]; injection H as <- <-.
    split; [reflexivity | split; constructor].
  - injection H as <- <-; split; [reflexivity | apply Hgen; left; lia].
  - injection H as <- <-; split; [reflexivity | apply Hgen; left; lia].
Qed.

Lemma qsharp_execute_keys_witness :
  NoDup (map fst (snd (match Histogram.qsharp_execute 2 ["H"%string] 4 (fun s _ => Nat.odd s) with
                       | Ret p => p | Raise _ => (0, []) end))).
Proof.
  destruct (qsharp_execute_keys 2 ["H"%string] 4 (fun s _ => Nat.odd s) 4
              [("00"%string, 2); ("10"%string, 2)] ltac:(vm_compute; reflexivity)) as [_ [H _]].
  vm_compute; exact H.
Defined.
